(** * Product Store: data access layer and page controllers

    A shallow embedding of [src/services/api.js], [pages/Products.jsx] and
    [pages/ProductDetails.jsx].

    - JavaScript values are an inductive type; objects are finite maps from
      property names to values.
    - A function that may throw returns [Except]; an [async] function is
      split at its [await] into the part that runs at the call and the part
      that runs when the awaited fetch settles.
    - A React component is its [useState] cells (a record), its effects and
      handlers (functions on that record) and a step relation whose user
      events are enabled only when the rendered tree offers the control. *)

From stdpp Require Import base strings gmap list.
From Stdlib Require Import ZArith QArith Ascii.

Local Open Scope string_scope.
Local Open Scope Z_scope.

(** ** JavaScript values *)

Module Js.

#[local] Set Warnings "-register-all".

Inductive JsValue : Type :=
  | JUndefined
  | JNull
  | JBool (b : bool)
  | JNum (x : Q)
  | JStr (s : string)
  | JArr (l : list JsValue)
  | JObj (m : gmap string JsValue).

(** What a rejected promise or a [throw] carries. *)
Inductive JsError : Type :=
  | TypeError      (* property read on null/undefined, call of a
                      non-function, fetch() rejected *)
  | SyntaxError.   (* response.json() on a body that is not JSON *)

Inductive Except (A : Type) : Type :=
  | Ok (a : A)
  | Throw (e : JsError).
Arguments Ok {A} a.
Arguments Throw {A} e.

(** Sequencing: a [Throw] skips the rest, as an exception does. *)
#[export] Instance Except_ret : MRet Except := λ A a, Ok a.
#[export] Instance Except_bind : MBind Except := λ A B k c,
  match c with
  | Ok a => k a
  | Throw e => Throw e
  end.

(** [o.name] for the data properties the program reads.  Reading from
    [null] or [undefined] throws; a missing property is [undefined].  None
    of the names the program reads is defined on the prototypes of
    booleans, numbers, strings or arrays. *)
Definition getProp (o : JsValue) (name : string) : Except JsValue :=
  match o with
  | JUndefined | JNull => Throw TypeError
  | JObj m => Ok (default JUndefined (m !! name))
  | JBool _ | JNum _ | JStr _ | JArr _ => Ok JUndefined
  end.

(** [a.map(f)] where [f] may throw: only arrays have a callable [map]. *)
Fixpoint mapM {A B} (f : A → Except B) (l : list A) : Except (list B) :=
  match l with
  | [] => Ok []
  | x :: xs => y ← f x; ys ← mapM f xs; Ok (y :: ys)
  end.

Definition arrayMap (f : JsValue → Except JsValue) (a : JsValue)
  : Except (list JsValue) :=
  match a with
  | JArr l => mapM f l
  | _ => Throw TypeError
  end.

(** ToBoolean, as used by [if (x)] and [!x]. *)
Definition truthy (v : JsValue) : bool :=
  match v with
  | JUndefined | JNull => false
  | JBool b => b
  | JNum x => negb (Qeq_bool x 0)
  | JStr s => negb (String.eqb s "")
  | JArr _ | JObj _ => true
  end.

(** [a[k]] for an array [a] and an integer [k]: out of range is
    [undefined]. *)
Definition arrayIndex (l : list JsValue) (k : Z) : JsValue :=
  if (k <? 0) then JUndefined else default JUndefined (l !! Z.to_nat k).

(** White space of [String.prototype.trim] among the code units below 256
    (strings are sequences of such code units here): TAB, LF, VT, FF, CR,
    SPACE and NBSP. *)
Definition isWhiteSpace (c : ascii) : bool :=
  let n := nat_of_ascii c in
  ((9 <=? n) && (n <=? 13) || (n =? 32) || (n =? 160))%nat.

Fixpoint trimStart (s : string) : string :=
  match s with
  | String c s' => if isWhiteSpace c then trimStart s' else s
  | EmptyString => EmptyString
  end.

Definition trimEnd (s : string) : string :=
  String.rev (trimStart (String.rev s)).

Definition trim (s : string) : string := trimEnd (trimStart s).

End Js.
Export Js.

(** ** services/api.js *)

Module Api.

(** The five URL templates of the module, with the interpolated argument. *)
Inductive Request : Type :=
  | GetProducts (limit : Z)            (* /products?limit=${limit} *)
  | GetProductById (id : string)       (* /products/${id} *)
  | GetCategories                      (* /products/categories *)
  | GetProductsByCategory (c : string) (* /products/category/${category} *)
  | GetSearch (query : string).        (* /products/search?q=${...(query)} *)

(** How [await fetch(url)] followed by [await response.json()] settles.
    [fetch] rejects only on a transport failure, and then with a
    TypeError; a reply with any status resolves, and the module never
    looks at the status.  [body] is [None] when the body is not JSON, in
    which case [json()] rejects with a SyntaxError. *)
Inductive Response : Type :=
  | Rejected
  | Reply (status : Z) (body : option JsValue).

Definition json (r : Response) : Except JsValue :=
  match r with
  | Rejected => Throw TypeError
  | Reply _ (Some v) => Ok v
  | Reply _ None => Throw SyntaxError
  end.

(** An [async] function of this module: the request it sends and what it
    returns (or throws) once the reply is in. *)
Record Async (A : Type) : Type := MkAsync {
  request : Request;
  settle : Response → Except A;
}.
Arguments MkAsync {A} _ _.
Arguments request {A} _.
Arguments settle {A} _ _.

Definition productFields : list string :=
  ["id"; "title"; "description"; "price"; "discountPercentage"; "rating";
   "stock"; "brand"; "category"; "thumbnail"; "images"].

Definition cleanProductData (product : JsValue) : Except JsValue :=
  id ← getProp product "id";
  title ← getProp product "title";
  description ← getProp product "description";
  price ← getProp product "price";
  discountPercentage ← getProp product "discountPercentage";
  rating ← getProp product "rating";
  stock ← getProp product "stock";
  brand ← getProp product "brand";
  category ← getProp product "category";
  thumbnail ← getProp product "thumbnail";
  images ← getProp product "images";
  Ok (JObj (list_to_map
    [("id", id); ("title", title); ("description", description);
     ("price", price); ("discountPercentage", discountPercentage);
     ("rating", rating); ("stock", stock); ("brand", brand);
     ("category", category); ("thumbnail", thumbnail);
     ("images", images)])).

(** The object returned by [fetchProducts] and [searchProducts]; its
    [products] is the array built by [map]. *)
Record ProductsPage : Type := MkPage {
  products : list JsValue;
  total : JsValue;
  skip : JsValue;
  limit : JsValue;
}.

Definition pageOf (data : JsValue) : Except ProductsPage :=
  raw ← getProp data "products";
  ps ← arrayMap cleanProductData raw;
  t ← getProp data "total";
  s ← getProp data "skip";
  l ← getProp data "limit";
  Ok (MkPage ps t s l).

Definition fetchProducts (limit : Z) : Async ProductsPage :=
  MkAsync (GetProducts limit) (λ response, data ← json response; pageOf data).

(** [fetchProducts()]: the default parameter. *)
Definition fetchProducts_default : Async ProductsPage := fetchProducts 30.

Definition fetchProductById (id : string) : Async JsValue :=
  MkAsync (GetProductById id)
    (λ response, product ← json response; cleanProductData product).

Definition fetchCategories : Async JsValue :=
  MkAsync GetCategories json.

Definition fetchProductsByCategory (category : string)
  : Async (list JsValue) :=
  MkAsync (GetProductsByCategory category)
    (λ response,
       data ← json response;
       raw ← getProp data "products";
       arrayMap cleanProductData raw).

Definition searchProducts (query : string) : Async ProductsPage :=
  MkAsync (GetSearch query) (λ response, data ← json response; pageOf data).

End Api.
Export Api.

(** ** pages/Products.jsx *)

Module Products.

(** An [async] function of the component suspended at its [await].
    [performSearch] closes over the [searchQuery] of the render that
    created it. *)
Inductive InFlight : Type :=
  | AwaitLoadProducts
  | AwaitPerformSearch (searchQuery : string)
  | AwaitHandleClear.

(** The six [useState] cells, and the suspended [async] functions. *)
Record State : Type := MkState {
  products : list JsValue;
  loading : bool;
  error : option string;          (* [None] is [null] *)
  inputValue : string;
  searchQuery : string;
  isSearching : bool;
  inFlight : list InFlight;
}.

Definition initial : State :=
  MkState [] true None "" "" false [].

Definition setProducts (v : list JsValue) (s : State) : State :=
  MkState v (loading s) (error s) (inputValue s) (searchQuery s)
    (isSearching s) (inFlight s).
Definition setLoading (v : bool) (s : State) : State :=
  MkState (products s) v (error s) (inputValue s) (searchQuery s)
    (isSearching s) (inFlight s).
Definition setError (v : string) (s : State) : State :=
  MkState (products s) (loading s) (Some v) (inputValue s) (searchQuery s)
    (isSearching s) (inFlight s).
Definition setInputValue (v : string) (s : State) : State :=
  MkState (products s) (loading s) (error s) v (searchQuery s)
    (isSearching s) (inFlight s).
Definition setSearchQuery (v : string) (s : State) : State :=
  MkState (products s) (loading s) (error s) (inputValue s) v
    (isSearching s) (inFlight s).
Definition setIsSearching (v : bool) (s : State) : State :=
  MkState (products s) (loading s) (error s) (inputValue s) (searchQuery s)
    v (inFlight s).

(** Reaching an [await]: the function is parked until the fetch settles. *)
Definition suspend (a : InFlight) (s : State) : State :=
  MkState (products s) (loading s) (error s) (inputValue s) (searchQuery s)
    (isSearching s) (inFlight s ++ [a]).
Definition wake (i : nat) (s : State) : State :=
  MkState (products s) (loading s) (error s) (inputValue s) (searchQuery s)
    (isSearching s) (delete i (inFlight s)).

(** The call it awaits. *)
Definition awaited (a : InFlight) : Async ProductsPage :=
  match a with
  | AwaitLoadProducts => fetchProducts_default
  | AwaitPerformSearch q => searchProducts q
  | AwaitHandleClear => fetchProducts_default
  end.

(** [loadProducts], up to the [await] and from it on. *)
Definition loadProducts_call (s : State) : State :=
  suspend AwaitLoadProducts (setLoading true s).

Definition loadProducts_resume (r : Except ProductsPage) (s : State) : State :=
  let s1 :=
    match r with
    | Ok data => setProducts (Api.products data) s
    | Throw _ => setError "Failed to load products" s
    end in
  setLoading false s1.

(** [performSearch] *)
Definition performSearch_call (searchQuery : string) (s : State) : State :=
  if negb (truthy (JStr searchQuery)) then setIsSearching false s
  else suspend (AwaitPerformSearch searchQuery) (setLoading true s).

Definition performSearch_resume (r : Except ProductsPage) (s : State)
  : State :=
  let s1 :=
    match r with
    | Ok data => setIsSearching true (setProducts (Api.products data) s)
    | Throw _ => setError "Failed to search products" s
    end in
  setLoading false s1.

(** [useEffect(..., [searchQuery])] after a render: it runs when the
    dependency differs from the previous render's. *)
Definition runEffects (before after : State) : State :=
  if decide (searchQuery before = searchQuery after) then after
  else performSearch_call (searchQuery after) after.

(** Mount: both effects run, in source order. *)
Definition mount : State :=
  performSearch_call (searchQuery initial) (loadProducts_call initial).

Definition handleSearch (s : State) : State :=
  runEffects s (setSearchQuery (trim (inputValue s)) s).

Definition handleKeyDown (key : string) (s : State) : State :=
  if decide (key = "Enter") then handleSearch s else s.

Definition handleClear_call (s : State) : State :=
  runEffects s
    (suspend AwaitHandleClear
       (setLoading true (setSearchQuery "" (setInputValue "" s)))).

Definition handleClear_resume (r : Except ProductsPage) (s : State) : State :=
  let s1 :=
    match r with
    | Ok data => setProducts (Api.products data) s
    | Throw _ => setError "Failed to load products" s
    end in
  setLoading false s1.

Definition resume (a : InFlight) (r : Except ProductsPage) (s : State)
  : State :=
  match a with
  | AwaitLoadProducts => loadProducts_resume r s
  | AwaitPerformSearch _ => performSearch_resume r s
  | AwaitHandleClear => handleClear_resume r s
  end.

(** [if (error)] *)
Definition errorShown (e : option string) : option string :=
  match e with
  | Some m => if truthy (JStr m) then Some m else None
  | None => None
  end.

(** The tree the [Products] function returns, as far as the controls and
    the listing go.  [Grid] holds the products for which the function
    creates a [ProductCard] element; what each card renders, and whether
    rendering it throws, is decided in [ProductCard] and is not part of
    this value. *)
Inductive Body : Type :=
  | NoResults (searchQuery : string)
  | Grid (cards : list JsValue).

Inductive View : Type :=
  | LoadingView
  | ErrorView (message : string)
  | PageView (input : string) (clearButton : bool)
      (found : bool) (count : nat) (body : Body).

Definition render (s : State) : View :=
  if loading s then LoadingView
  else match errorShown (error s) with
  | Some m => ErrorView m
  | None =>
      PageView (inputValue s) (isSearching s) (isSearching s)
        (length (products s))
        (if decide (length (products s) = 0%nat)
         then NoResults (searchQuery s) else Grid (products s))
  end.

(** What can happen to a mounted component. *)
Inductive Event : Type :=
  | Change (value : string)          (* onChange of the input *)
  | Search                           (* the button, or Enter in the input *)
  | Clear                            (* the Clear button *)
  | Settle (i : nat) (r : Response). (* the i-th pending fetch settles *)

(** A control can be used only if the current tree contains it.  The
    rendering of the cards is not modelled: if it throws, React unmounts
    the page and nothing more happens, so the runs below include every
    run of the page. *)
Definition enabled (e : Event) (s : State) : bool :=
  match e, render s with
  | Change _, PageView _ _ _ _ _ => true
  | Search, PageView _ _ _ _ _ => true
  | Clear, PageView _ clearButton _ _ _ => clearButton
  | Settle i _, _ => bool_decide (is_Some (inFlight s !! i))
  | _, _ => false
  end.

Definition fire (e : Event) (s : State) : State :=
  match e with
  | Change v => setInputValue v s
  | Search => handleSearch s
  | Clear => handleClear_call s
  | Settle i r =>
      match inFlight s !! i with
      | Some a => resume a (settle (awaited a) r) (wake i s)
      | None => s
      end
  end.

Definition step (s : State) (e : Event) (s' : State) : Prop :=
  enabled e s = true ∧ s' = fire e s.

Fixpoint run (es : list Event) (s : State) : option State :=
  match es with
  | [] => Some s
  | e :: es' => if enabled e s then run es' (fire e s) else None
  end.

Definition reachable (s : State) : Prop :=
  ∃ es, run es mount = Some s.

(** What holds of every state the component can reach: the flag
    [loading] is up exactly while a fetch is pending, there is at most one
    of them, a pending search was made for the current non-empty
    [searchQuery], and search mode implies a non-empty [searchQuery]. *)
Record invariant (s : State) : Prop := MkInvariant {
  inv_loading : loading s = true ↔ inFlight s ≠ [];
  inv_single : (length (inFlight s) ≤ 1)%nat;
  inv_query : ∀ q, AwaitPerformSearch q ∈ inFlight s →
                   q = searchQuery s ∧ q ≠ "";
  inv_searching : isSearching s = true → searchQuery s ≠ "";
}.

End Products.

(** ** pages/ProductDetails.jsx *)

Module ProductDetails.

(** The four [useState] cells, the route parameter of the current render,
    and the identifiers the suspended [loadProduct] calls were made for. *)
Record State : Type := MkState {
  id : string;
  product : JsValue;
  loading : bool;
  error : option string;
  selectedImage : Z;
  inFlight : list string;
}.

Definition initial (id : string) : State :=
  MkState id JNull true None 0 [].

Definition setProduct (v : JsValue) (s : State) : State :=
  MkState (id s) v (loading s) (error s) (selectedImage s) (inFlight s).
Definition setLoading (v : bool) (s : State) : State :=
  MkState (id s) (product s) v (error s) (selectedImage s) (inFlight s).
Definition setError (v : string) (s : State) : State :=
  MkState (id s) (product s) (loading s) (Some v) (selectedImage s)
    (inFlight s).
Definition setSelectedImage (v : Z) (s : State) : State :=
  MkState (id s) (product s) (loading s) (error s) v (inFlight s).

Definition suspend (a : string) (s : State) : State :=
  MkState (id s) (product s) (loading s) (error s) (selectedImage s)
    (inFlight s ++ [a]).
Definition wake (i : nat) (s : State) : State :=
  MkState (id s) (product s) (loading s) (error s) (selectedImage s)
    (delete i (inFlight s)).

(** [loadProduct], up to the [await] and from it on. *)
Definition loadProduct_call (id : string) (s : State) : State :=
  suspend id (setLoading true s).

Definition loadProduct_resume (r : Except JsValue) (s : State) : State :=
  let s1 :=
    match r with
    | Ok data => setProduct data s
    | Throw _ => setError "Failed to load product" s
    end in
  setLoading false s1.

Definition mount (id : string) : State :=
  loadProduct_call id (initial id).

(** The route parameter changes under the mounted component:
    [useEffect(..., [id])] runs again when it differs. *)
Definition navigate (id' : string) (s : State) : State :=
  let s' := MkState id' (product s) (loading s) (error s) (selectedImage s)
              (inFlight s) in
  if decide (id s = id') then s' else loadProduct_call id' s'.

Definition errorShown (e : option string) : option string :=
  match e with
  | Some m => if truthy (JStr m) then Some m else None
  | None => None
  end.

(** The tree the component returns, as far as the image gallery goes (the
    text, price, rating and stock markup is left out).  [Crash] is a
    TypeError thrown while rendering: [product.images[selectedImage]]
    throws when [images] is [null] or [undefined], and the gallery's
    [product.images.map(...)] throws for every value that is not an
    array.  [DetailsView] says that the gallery is built with this main
    image and these thumbnails; the markup that follows it in the same
    return is not evaluated here and may still throw (the stars of a
    negative rating do). *)
Inductive View : Type :=
  | LoadingView
  | ErrorView (message : string)
  | NotFoundView
  | DetailsView (mainImage : JsValue) (thumbnails : list JsValue)
  | Crash.

Definition render (s : State) : View :=
  if loading s then LoadingView
  else match errorShown (error s) with
  | Some m => ErrorView m
  | None =>
      if negb (truthy (product s)) then NotFoundView
      else match getProp (product s) "images" with
      | Ok (JArr images) =>
          DetailsView (arrayIndex images (selectedImage s)) images
      | _ => Crash
      end
  end.

Inductive Event : Type :=
  | Navigate (id : string)           (* the router renders another id *)
  | ClickThumbnail (index : nat)     (* onClick of the index-th thumbnail *)
  | Settle (i : nat) (r : Response). (* the i-th pending fetch settles *)

(** An event reaches the component only while its tree is mounted: the
    application has no error boundary, so a render that throws makes React
    unmount the tree, and later route changes and state updates are
    dropped. *)
Definition enabled (e : Event) (s : State) : bool :=
  match e, render s with
  | _, Crash => false
  | Navigate _, _ => true
  | ClickThumbnail index, DetailsView _ thumbnails =>
      bool_decide (index < length thumbnails)%nat
  | Settle i _, _ => bool_decide (is_Some (inFlight s !! i))
  | _, _ => false
  end.

Definition fire (e : Event) (s : State) : State :=
  match e with
  | Navigate id' => navigate id' s
  | ClickThumbnail index => setSelectedImage (Z.of_nat index) s
  | Settle i r =>
      match inFlight s !! i with
      | Some a =>
          loadProduct_resume (settle (fetchProductById a) r) (wake i s)
      | None => s
      end
  end.

Definition step (s : State) (e : Event) (s' : State) : Prop :=
  enabled e s = true ∧ s' = fire e s.

Fixpoint run (es : list Event) (s : State) : option State :=
  match es with
  | [] => Some s
  | e :: es' => if enabled e s then run es' (fire e s) else None
  end.

Definition reachable (s : State) : Prop :=
  ∃ id es, run es (mount id) = Some s.

(** Whether [selectedImage] is a position of [product.images]. *)
Definition selectionInBounds (s : State) : Prop :=
  match getProp (product s) "images" with
  | Ok (JArr images) => 0 ≤ selectedImage s < Z.of_nat (length images)
  | _ => False
  end.

(** Once nothing is loading, a product or an error is stored. *)
Definition settled (s : State) : Prop :=
  loading s = true ∨ truthy (product s) = true ∨
  is_Some (errorShown (error s)).

End ProductDetails.

(** ** Sample data *)

Definition sampleRaw (i : Z) (title : string) (images : list string)
  : gmap string JsValue :=
  list_to_map
    [("id", JNum (inject_Z i)); ("title", JStr title);
     ("description", JStr "A product");
     ("price", JNum (54999 # 100)); ("discountPercentage", JNum 0);
     ("rating", JNum (9 # 2)); ("stock", JNum 94); ("brand", JStr "Acme");
     ("category", JStr "smartphones"); ("thumbnail", JStr "t.png");
     ("images", JArr (JStr <$> images));
     ("sku", JStr "X-1"); ("weight", JNum 3)].

Definition rawPhone : gmap string JsValue :=
  sampleRaw 1 "Phone" ["a.png"; "b.png"].

(** A raw record the remote sends without [brand]. *)
Definition rawNoBrand : gmap string JsValue := delete "brand" rawPhone.

(** A list reply, and the reply for an identifier that does not exist. *)
Definition listReply (l : list (gmap string JsValue)) : Response :=
  Reply 200 (Some (JObj (list_to_map
    [("products", JArr (JObj <$> l)); ("total", JNum 2); ("skip", JNum 0);
     ("limit", JNum 30)]))).

Definition productReply (raw : gmap string JsValue) : Response :=
  Reply 200 (Some (JObj raw)).

Definition notFoundReply : Response :=
  Reply 404 (Some (JObj (list_to_map
    [("message", JStr "Product with id '9999' not found")]))).

(** The record [cleanProductData] builds from [notFoundReply]'s body. *)
Definition emptyProduct : gmap string JsValue :=
  list_to_map ((λ f, (f, JUndefined)) <$> productFields).

(** Listing page: the default listing arrives, the user types "phone" and
    commits, one match arrives. *)
Definition searchSession : list Products.Event :=
  [Products.Settle 0
     (listReply [rawPhone; sampleRaw 2 "Shoe" ["s.png"]]);
   Products.Change "phone";
   Products.Search;
   Products.Settle 0 (listReply [rawPhone])].

Definition afterSearch : Products.State :=
  default Products.mount (Products.run searchSession Products.mount).

(** The same, but the search request fails. *)
Definition failedSearchSession : list Products.Event :=
  [Products.Settle 0
     (listReply [rawPhone; sampleRaw 2 "Shoe" ["s.png"]]);
   Products.Change "phone";
   Products.Search;
   Products.Settle 0 Rejected].

Definition afterFailedSearch : Products.State :=
  default Products.mount (Products.run failedSearchSession Products.mount).

(** Detail page of product 1, which has three images; the user picks the
    last one. *)
Definition threeImages : gmap string JsValue :=
  sampleRaw 1 "Phone" ["a.png"; "b.png"; "c.png"].

Definition galleryVisit : list ProductDetails.Event :=
  [ProductDetails.Settle 0 (productReply threeImages);
   ProductDetails.ClickThumbnail 2].

Definition afterGalleryVisit : ProductDetails.State :=
  default (ProductDetails.mount "1")
    (ProductDetails.run galleryVisit (ProductDetails.mount "1")).

(** Detail page of product 1 once its two-image record is loaded. *)
Definition loadedPhone : ProductDetails.State :=
  default (ProductDetails.mount "1")
    (ProductDetails.run [ProductDetails.Settle 0 (productReply rawPhone)]
       (ProductDetails.mount "1")).

(** ** Notions used to state further properties *)

(** [v] is [null] or [undefined]: the values a property read throws on. *)
Definition nullish (v : JsValue) : bool :=
  match v with
  | JUndefined | JNull => true
  | _ => false
  end.

(** The own data properties of a value: those of an object, none for a
    primitive or (among the names the program reads) an array. *)
Definition ownProps (v : JsValue) : gmap string JsValue :=
  match v with
  | JObj m => m
  | _ => ∅
  end.

(** The object literal of [cleanProductData], given the properties read. *)
Definition project (m : gmap string JsValue) : gmap string JsValue :=
  list_to_map ((λ f, (f, default JUndefined (m !! f))) <$> productFields).

Definition cleaned (v : JsValue) : JsValue := JObj (project (ownProps v)).

(** A record with exactly the 11 allow-listed properties. *)
Definition isProduct (p : JsValue) : Prop :=
  ∃ m : gmap string JsValue, p = JObj m ∧ dom m = list_to_set productFields.

#[export] Instance Except_fmap : FMap Except := λ A B f c,
  match c with
  | Ok a => Ok (f a)
  | Throw e => Throw e
  end.

(** The route parameter changes. *)
Definition isNavigate (e : ProductDetails.Event) : bool :=
  match e with
  | ProductDetails.Navigate _ => true
  | _ => false
  end.

(** What holds on the detail page while the route stays the same: there
    is one load, and the selection is still the initial 0 until a
    thumbnail is clicked. *)
Record steady (s : ProductDetails.State) : Prop := MkSteady {
  steady_loading :
    ProductDetails.loading s = true ↔ ProductDetails.inFlight s ≠ [];
  steady_single : (length (ProductDetails.inFlight s) ≤ 1)%nat;
  steady_initial :
    ProductDetails.inFlight s ≠ [] → ProductDetails.selectedImage s = 0;
  steady_selection :
    ProductDetails.selectedImage s = 0 ∨ ProductDetails.selectionInBounds s;
}.


(** A keystroke in the search input. *)
Definition isChange (e : Products.Event) : bool :=
  match e with
  | Products.Change _ => true
  | _ => false
  end.

(** A list reply with no product, and one whose body is an error object. *)
Definition emptyListReply : Response := listReply [].

Definition serverErrorReply : Response :=
  Reply 500 (Some (JObj (list_to_map
    [("message", JStr "Internal Server Error")]))).

(** ** Properties of the normalization *)

Section Normalization.

(** On an object every property read succeeds, so the result is the
    object literal with one entry per allow-listed name. *)
Lemma cleanProductData_obj (raw : gmap string JsValue) :
  cleanProductData (JObj raw) =
  Ok (JObj (list_to_map
    ((λ f, (f, default JUndefined (raw !! f))) <$> productFields))).
Proof. reflexivity. Qed.

Lemma productFields_NoDup : NoDup productFields.
Proof. apply (bool_decide_unpack _). vm_compute. exact I. Qed.

Lemma fst_tagged {A B} (g : A → B) (l : list A) :
  ((λ x, (x, g x)) <$> l).*1 = l.
Proof. induction l as [|x l IH]; [done|]. cbn. by f_equal. Qed.

Lemma projection_lookup (raw : gmap string JsValue) (f : string) :
  (list_to_map ((λ f, (f, default JUndefined (raw !! f))) <$> productFields)
     : gmap string JsValue) !! f =
  if decide (f ∈ productFields) then Some (default JUndefined (raw !! f))
  else None.
Proof.
  case_decide as Hin.
  - apply elem_of_list_to_map_1.
    + rewrite fst_tagged. apply productFields_NoDup.
    + apply list_elem_of_fmap. by exists f.
  - apply not_elem_of_list_to_map_1.
    by rewrite fst_tagged.
Qed.

End Normalization.

(** C1.  For a raw record that has the 11 required fields,
    [cleanProductData] returns an object whose own properties are exactly
    the 11 allow-listed names, each holding the raw record's value; every
    other property of the raw record is dropped. *)
Theorem cleanProductData_allow_list (raw : gmap string JsValue) :
  Forall (λ f, is_Some (raw !! f)) productFields →
  ∃ out : gmap string JsValue,
    cleanProductData (JObj raw) = Ok (JObj out) ∧
    dom out = list_to_set productFields ∧
    (∀ f, f ∈ productFields → out !! f = raw !! f) ∧
    (∀ f, f ∉ productFields → out !! f = None).
Proof.
  intros Hreq. eexists. split; [apply cleanProductData_obj|].
  split; [|split].
  - apply set_eq. intros f. rewrite elem_of_dom, projection_lookup.
    rewrite elem_of_list_to_set.
    case_decide; (split; [intros [? ?]|intros ?]); eauto; done.
  - intros f Hf. rewrite projection_lookup. rewrite decide_True by done.
    rewrite Forall_forall in Hreq. destruct (Hreq f Hf) as [v ->]. done.
  - intros f Hf. rewrite projection_lookup. by rewrite decide_False.
Qed.

Lemma cleanProductData_allow_list_witness :
  ∃ out : gmap string JsValue,
    cleanProductData (JObj rawPhone) = Ok (JObj out) ∧
    dom out = list_to_set productFields ∧
    (∀ f, f ∈ productFields → out !! f = rawPhone !! f) ∧
    (∀ f, f ∉ productFields → out !! f = None).
Proof.
  apply (cleanProductData_allow_list rawPhone).
  apply (bool_decide_unpack _). vm_compute. exact I.
Defined.

(** C8 as stated fails: a raw record without [brand] is normalized to a
    record whose [brand] is [undefined], not the empty string. *)
Lemma brand_absent_not_empty_string :
  rawNoBrand !! "brand" = None ∧
  ∃ out : gmap string JsValue,
    cleanProductData (JObj rawNoBrand) = Ok (JObj out) ∧
    out !! "brand" = Some JUndefined ∧
    out !! "brand" ≠ Some (JStr "").
Proof.
  split; [by vm_compute|].
  eexists. split; [apply cleanProductData_obj|].
  rewrite projection_lookup. split; [by vm_compute|].
  vm_compute. discriminate.
Qed.

(** C8, amended.  When [brand] is absent from the raw record, the
    normalized record still has a [brand] property and its value is
    [undefined]. *)
Theorem cleanProductData_brand_absent (raw : gmap string JsValue) :
  raw !! "brand" = None →
  ∃ out : gmap string JsValue,
    cleanProductData (JObj raw) = Ok (JObj out) ∧
    out !! "brand" = Some JUndefined.
Proof.
  intros Hb. eexists. split; [apply cleanProductData_obj|].
  rewrite projection_lookup, Hb. by vm_compute.
Qed.

Lemma cleanProductData_brand_absent_witness :
  ∃ out : gmap string JsValue,
    cleanProductData (JObj rawNoBrand) = Ok (JObj out) ∧
    out !! "brand" = Some JUndefined.
Proof.
  apply (cleanProductData_brand_absent rawNoBrand). vm_compute. reflexivity.
Defined.

(** ** Properties of the listing controller *)

Module ProductsFacts.
Import Products.

Lemma run_app (es1 es2 : list Event) (s : State) :
  run (es1 ++ es2) s = s' ← run es1 s; run es2 s'.
Proof.
  revert s. induction es1 as [|e es1 IH]; intros s; [done|].
  cbn [app run]. destruct (enabled e s); [apply IH|done].
Qed.

(** Induction over the states the mounted component can be in. *)
Lemma reachable_ind (P : State → Prop) :
  P mount →
  (∀ s e, P s → enabled e s = true → P (fire e s)) →
  ∀ s, reachable s → P s.
Proof.
  intros Hmount Hstep s [es Hrun]. revert Hrun.
  generalize mount Hmount. induction es as [|e es IH]; intros s0 H0; cbn.
  - intros [= <-]. exact H0.
  - destruct (enabled e s0) eqn:He; [|done]. apply IH. by apply Hstep.
Qed.

Lemma falsy_string (q : string) : truthy (JStr q) = false ↔ q = "".
Proof.
  cbn. destruct (String.eqb_spec q ""); cbn; split; congruence.
Qed.

(** The page, and with it the input and the buttons, is in the tree only
    when nothing is loading and no error is stored. *)
Lemma page_rendered (s : State) v c f n b :
  render s = PageView v c f n b →
  loading s = false ∧ errorShown (error s) = None ∧ c = isSearching s.
Proof.
  unfold render. destruct (loading s); [done|].
  destruct (errorShown (error s)); [done|]. by intros [= <- <- <- <- <-].
Qed.

Lemma invariant_mount : invariant mount.
Proof.
  split; cbn; try done.
  intros q Hq. apply list_elem_of_singleton in Hq. done.
Qed.

Lemma idle_of_page (s : State) :
  invariant s → loading s = false → inFlight s = [].
Proof.
  intros Hinv Hl. destruct (inFlight s) eqn:Hf; [done|].
  assert (loading s = true); [|congruence].
  apply (inv_loading s Hinv). by rewrite Hf.
Qed.

Lemma invariant_handleSearch (s : State) :
  invariant s → loading s = false → invariant (handleSearch s).
Proof.
  intros Hinv Hl. pose proof (idle_of_page s Hinv Hl) as Hidle.
  destruct Hinv as [H1 H2 H3 H4].
  unfold handleSearch, runEffects. cbn [setSearchQuery searchQuery].
  case_decide as Hq.
  - split; cbn; rewrite <- ?Hq; auto.
  - unfold performSearch_call. cbn [setSearchQuery searchQuery].
    destruct (truthy (JStr (trim (inputValue s)))) eqn:Ht; cbn.
    + assert (trim (inputValue s) ≠ "") as Hne.
      { intros Hz. apply falsy_string in Hz. congruence. }
      split; cbn; rewrite ?Hidle; cbn; auto.
      * split; [intros _; discriminate|reflexivity].
      * intros q Hq'. apply list_elem_of_singleton in Hq'.
        injection Hq' as ->. done.
    + split; cbn; auto. rewrite Hidle. intros q Hq'. by apply elem_of_nil in Hq'.
Qed.

Lemma invariant_handleClear (s : State) :
  invariant s → loading s = false → isSearching s = true →
  invariant (handleClear_call s).
Proof.
  intros Hinv Hl Hs. pose proof (idle_of_page s Hinv Hl) as Hidle.
  pose proof (inv_searching s Hinv Hs) as Hne.
  unfold handleClear_call, runEffects. cbn.
  rewrite decide_False by done. cbn.
  split; cbn; rewrite ?Hidle; cbn; auto; try done.
  intros q Hq. apply list_elem_of_singleton in Hq. done.
Qed.

Lemma invariant_settle (s : State) i r :
  invariant s → is_Some (inFlight s !! i) → invariant (fire (Settle i r) s).
Proof.
  intros Hinv [a Ha]. cbn [fire]. rewrite Ha.
  generalize (settle (awaited a) r). intros res.
  destruct Hinv as [H1 H2 H3 H4].
  destruct (inFlight s) as [|a0 [|a1 l]] eqn:Hf; [done| |cbn in H2; lia].
  destruct i as [|i]; [|done]. cbn in Ha. simplify_eq.
  assert (wake 0 s = MkState (products s) (loading s) (error s)
            (inputValue s) (searchQuery s) (isSearching s) []) as ->.
  { unfold wake. by rewrite Hf. }
  destruct a as [|q|]; destruct res as [data|err]; cbn;
    split; cbn; auto; try done; try by intros ? ?%elem_of_nil.
  intros _. destruct (H3 q) as [Heq Hne]; [by left|]. by rewrite <- Heq.
Qed.

Lemma invariant_step (s : State) (e : Event) :
  invariant s → enabled e s = true → invariant (fire e s).
Proof.
  intros Hinv He. destruct e as [v| | |i r]; unfold enabled in He.
  - destruct Hinv. split; cbn; auto.
  - destruct (render s) eqn:Hr; try done.
    apply page_rendered in Hr as (Hl & _ & _).
    by apply invariant_handleSearch.
  - destruct (render s) eqn:Hr; try done.
    apply page_rendered in Hr as (Hl & _ & ->).
    by apply invariant_handleClear.
  - apply invariant_settle; [done|].
    destruct (render s); by apply bool_decide_eq_true in He.
Qed.

Lemma invariant_reachable (s : State) : reachable s → invariant s.
Proof.
  apply reachable_ind; [apply invariant_mount|].
  intros s0 e. apply invariant_step.
Qed.

End ProductsFacts.

(** ** Properties of the detail controller *)

Module ProductDetailsFacts.
Import ProductDetails.

Lemma details_reachable_ind (P : State → Prop) :
  (∀ id, P (mount id)) →
  (∀ s e, P s → enabled e s = true → P (fire e s)) →
  ∀ s, reachable s → P s.
Proof.
  intros Hmount Hstep s (i & es & Hrun). revert Hrun.
  generalize (mount i) (Hmount i).
  induction es as [|e es IH]; intros s0 H0; cbn.
  - intros [= <-]. exact H0.
  - destruct (enabled e s0) eqn:He; [|done]. apply IH. by apply Hstep.
Qed.

(** Whatever [cleanProductData] returns is an object, hence truthy. *)
Lemma cleanProductData_truthy (v data : JsValue) :
  cleanProductData v = Ok data → truthy data = true.
Proof. destruct v; cbn; intros [= <-] || discriminate; reflexivity. Qed.

Lemma fetchProductById_truthy (a : string) (r : Response) (data : JsValue) :
  settle (fetchProductById a) r = Ok data → truthy data = true.
Proof.
  destruct r as [|st [v|]]; cbn; try discriminate.
  apply cleanProductData_truthy.
Qed.

(** A JSON object is never rejected by [fetchProductById], whatever the
    status of the reply and whatever the object holds. *)
Lemma fetchProductById_object (a : string) (st : Z) (m : gmap string JsValue) :
  settle (fetchProductById a) (Reply st (Some (JObj m))) =
  Ok (JObj (list_to_map
    ((λ f, (f, default JUndefined (m !! f))) <$> productFields))).
Proof. reflexivity. Qed.

Lemma settled_reachable (s : State) : reachable s → settled s.
Proof.
  apply details_reachable_ind; [by left|].
  intros s0 e H0 He. destruct e as [id'|index|i r]; cbn [fire].
  - unfold navigate. case_decide; [exact H0|by left].
  - exact H0.
  - destruct (inFlight s0 !! i) as [a|]; [|exact H0].
    destruct (settle (fetchProductById a) r) as [data|err] eqn:Hr.
    + right; left. cbn. by eapply fetchProductById_truthy.
    + right; right. by eexists.
Qed.

(** The [if (!product)] branch is dead: no state of the component renders
    it. *)
Lemma not_found_branch_unreachable (s : State) :
  reachable s → render s ≠ NotFoundView.
Proof.
  intros Hs%settled_reachable. unfold render.
  destruct Hs as [-> | [Hp | [m Hm]]]; [done| |].
  - destruct (loading s); [done|]. destruct (errorShown _); [done|].
    rewrite Hp. cbn. destruct (getProp (product s) "images") as [[]|]; done.
  - destruct (loading s); [done|]. by rewrite Hm.
Qed.

Lemma idle_not_loading (s : State) :
  reachable s → inFlight s = [] → loading s = false.
Proof.
  revert s.
  apply (details_reachable_ind (λ s, inFlight s = [] → loading s = false));
    [done|].
  intros s0 e H0 He. destruct e as [id'|index|i r]; cbn [fire].
  - unfold navigate. case_decide; [exact H0|].
    cbn. by intros [_ [=]]%app_eq_nil.
  - exact H0.
  - destruct (inFlight s0 !! i) as [a|]; [|exact H0].
    by destruct (settle (fetchProductById a) r).
Qed.

(** The settling of a fetch never writes [selectedImage]. *)
Lemma settle_keeps_selected_image (s : State) i r :
  selectedImage (fire (Settle i r) s) = selectedImage s.
Proof.
  cbn [fire]. destruct (inFlight s !! i) as [a|]; [|done].
  by destruct (settle (fetchProductById a) r).
Qed.

End ProductDetailsFacts.

(** ** The claims about the controllers *)

Import ProductsFacts ProductDetailsFacts.

(** A commit whose trimmed input is empty never starts a fetch and never
    touches the listing. *)
Lemma handleSearch_blank (s : Products.State) :
  trim (Products.inputValue s) = "" →
  Products.inFlight (Products.handleSearch s) = Products.inFlight s ∧
  Products.products (Products.handleSearch s) = Products.products s ∧
  Products.loading (Products.handleSearch s) = Products.loading s.
Proof.
  intros Ht. unfold Products.handleSearch, Products.runEffects.
  cbn [Products.setSearchQuery Products.searchQuery]. rewrite Ht.
  by case_decide.
Qed.

(** C2, on the code.  After a successful search for "phone", committing
    the input "   " (whose trimmed value is empty) leaves search mode but
    starts no fetch: the listing keeps the search results, now rendered
    without the Clear button.  The Clear handler from the same state does
    start a fetch of the default listing. *)
Theorem blank_commit_keeps_search_results :
  trim "   " = "" ∧
  Products.run searchSession Products.mount = Some afterSearch ∧
  Products.isSearching afterSearch = true ∧
  length (Products.products afterSearch) = 1%nat ∧
  ∃ committed cleared,
    Products.run [Products.Change "   "; Products.Search] afterSearch
      = Some committed ∧
    Products.run [Products.Clear] afterSearch = Some cleared ∧
    Products.inFlight committed = [] ∧
    Products.loading committed = false ∧
    Products.products committed = Products.products afterSearch ∧
    Products.isSearching committed = false ∧
    Products.render committed =
      Products.PageView "   " false false 1
        (Products.Grid (Products.products afterSearch)) ∧
    Products.inFlight cleared = [Products.AwaitHandleClear] ∧
    request (Products.awaited Products.AwaitHandleClear) = GetProducts 30 ∧
    Products.loading cleared = true.
Proof.
  split; [reflexivity|]. split; [by vm_compute|].
  split; [by vm_compute|]. split; [by vm_compute|].
  eexists _, _. split; [by vm_compute|]. split; [by vm_compute|].
  repeat split; by vm_compute.
Qed.

(** C3, on the code.  For the reply the remote gives for a nonexistent
    identifier, [fetchProductById] does not fail: it returns a record
    whose 11 fields are all [undefined].  [loadProduct] stores it as the
    product with no error, the not-found branch is skipped because the
    record is truthy, and rendering throws on [product.images]. *)
Theorem nonexistent_id_stores_empty_product :
  settle (fetchProductById "9999") notFoundReply = Ok (JObj emptyProduct) ∧
  ∃ s,
    ProductDetails.run [ProductDetails.Settle 0 notFoundReply]
      (ProductDetails.mount "9999") = Some s ∧
    ProductDetails.product s = JObj emptyProduct ∧
    ProductDetails.error s = None ∧
    ProductDetails.loading s = false ∧
    ProductDetails.inFlight s = [] ∧
    ProductDetails.render s = ProductDetails.Crash.
Proof.
  split; [by vm_compute|].
  eexists. split; [by vm_compute|]. repeat split; by vm_compute.
Qed.

(** C4 as stated fails: with the third image of product 1 selected, the
    route changes to product 2.  While the new fetch is pending the state
    still holds index 2 and product 1; and when a one-image record
    arrives, the index is still 2. *)
Lemma navigate_keeps_selected_image :
  ProductDetails.run galleryVisit (ProductDetails.mount "1")
    = Some afterGalleryVisit ∧
  ∃ during after,
    ProductDetails.run [ProductDetails.Navigate "2"] afterGalleryVisit
      = Some during ∧
    ProductDetails.id during = "2" ∧
    ProductDetails.inFlight during = ["2"] ∧
    ProductDetails.selectedImage during = 2 ∧
    ProductDetails.selectedImage during ≠ 0 ∧
    ProductDetails.product during = ProductDetails.product afterGalleryVisit ∧
    ProductDetails.product during ≠ JNull ∧
    ProductDetails.run
      [ProductDetails.Settle 0 (productReply (sampleRaw 2 "Shoe" ["s.png"]))]
      during = Some after ∧
    ProductDetails.selectedImage after = 2 ∧
    ProductDetails.render after =
      ProductDetails.DetailsView JUndefined [JStr "s.png"].
Proof.
  split; [by vm_compute|].
  eexists _, _. split; [by vm_compute|].
  repeat split; by vm_compute.
Qed.

(** C4, amended.  When the route parameter changes, the only cells written
    before the new fetch settles are [loading] (set to true) and the list
    of pending fetches; [product], [error] and [selectedImage] keep their
    values, and the settling of a fetch does not write [selectedImage]
    either.  The index is 0 only when the component mounts. *)
Theorem navigate_resets_nothing (s : ProductDetails.State) (id' : string) :
  (∀ i, ProductDetails.selectedImage (ProductDetails.mount i) = 0) ∧
  ProductDetails.selectedImage (ProductDetails.navigate id' s)
    = ProductDetails.selectedImage s ∧
  ProductDetails.product (ProductDetails.navigate id' s)
    = ProductDetails.product s ∧
  ProductDetails.error (ProductDetails.navigate id' s)
    = ProductDetails.error s ∧
  (ProductDetails.id s ≠ id' →
     ProductDetails.loading (ProductDetails.navigate id' s) = true ∧
     ProductDetails.inFlight (ProductDetails.navigate id' s)
       = (ProductDetails.inFlight s ++ [id'])%list) ∧
  (∀ i r,
     ProductDetails.selectedImage
       (ProductDetails.fire (ProductDetails.Settle i r)
          (ProductDetails.navigate id' s))
     = ProductDetails.selectedImage s).
Proof.
  split; [done|].
  assert (ProductDetails.selectedImage (ProductDetails.navigate id' s)
          = ProductDetails.selectedImage s) as Hsel.
  { unfold ProductDetails.navigate. by case_decide. }
  split; [exact Hsel|].
  split; [unfold ProductDetails.navigate; by case_decide|].
  split; [unfold ProductDetails.navigate; by case_decide|].
  split.
  - intros Hid. unfold ProductDetails.navigate.
    by rewrite decide_False by exact Hid.
  - intros i r. by rewrite settle_keeps_selected_image.
Qed.

Lemma navigate_resets_nothing_witness :
  ProductDetails.loading (ProductDetails.navigate "2" afterGalleryVisit)
    = true ∧
  ProductDetails.selectedImage (ProductDetails.navigate "2" afterGalleryVisit)
    = 2.
Proof.
  destruct (navigate_resets_nothing afterGalleryVisit "2")
    as (_ & Hsel & _ & _ & Hload & _).
  split.
  - apply Hload. vm_compute. discriminate.
  - rewrite Hsel. vm_compute. reflexivity.
Defined.

(** C5 as stated fails: [setSelectedImage] does not clamp.  With the
    two-image product loaded, index 5 is stored as it is, and the main
    image is then [product.images[5]], that is [undefined]. *)
Lemma setSelectedImage_out_of_bounds :
  ProductDetails.render loadedPhone =
    ProductDetails.DetailsView (JStr "a.png") [JStr "a.png"; JStr "b.png"] ∧
  ProductDetails.selectedImage (ProductDetails.setSelectedImage 5 loadedPhone)
    = 5 ∧
  ¬ ProductDetails.selectionInBounds
      (ProductDetails.setSelectedImage 5 loadedPhone) ∧
  ProductDetails.render (ProductDetails.setSelectedImage 5 loadedPhone) =
    ProductDetails.DetailsView JUndefined [JStr "a.png"; JStr "b.png"].
Proof.
  split; [by vm_compute|]. split; [by vm_compute|]. split; [|by vm_compute].
  vm_compute. intros [_ H]. discriminate H.
Qed.

(** C5, amended.  [setSelectedImage] stores the index it is given, for
    every integer; the selection stays within [product.images] because
    the only caller is the [onClick] of a rendered thumbnail, which passes
    that thumbnail's position in the array being displayed. *)
Theorem thumbnail_click_in_bounds (s : ProductDetails.State) (index : nat) :
  ProductDetails.enabled (ProductDetails.ClickThumbnail index) s = true →
  (∀ k, ProductDetails.selectedImage (ProductDetails.setSelectedImage k s)
        = k) ∧
  ProductDetails.selectionInBounds
    (ProductDetails.fire (ProductDetails.ClickThumbnail index) s) ∧
  ∃ image thumbnails,
    ProductDetails.render
      (ProductDetails.fire (ProductDetails.ClickThumbnail index) s)
      = ProductDetails.DetailsView image thumbnails ∧
    thumbnails !! index = Some image.
Proof.
  intros He. split; [done|].
  unfold ProductDetails.enabled, ProductDetails.render in He.
  unfold ProductDetails.selectionInBounds, ProductDetails.render.
  cbn [ProductDetails.fire ProductDetails.setSelectedImage
       ProductDetails.loading ProductDetails.error ProductDetails.product
       ProductDetails.selectedImage].
  destruct (ProductDetails.loading s); [done|].
  destruct (ProductDetails.errorShown (ProductDetails.error s)); [done|].
  destruct (negb (truthy (ProductDetails.product s))); [done|].
  destruct (getProp (ProductDetails.product s) "images")
    as [[| | | | |images|]|]; try done.
  apply bool_decide_eq_true in He.
  split; [lia|].
  destruct (lookup_lt_is_Some_2 images index He) as [image Himage].
  exists image, images. split; [|done].
  unfold arrayIndex. rewrite Nat2Z.id, Himage.
  by destruct (Z.ltb_spec (Z.of_nat index) 0); [lia|].
Qed.

Lemma thumbnail_click_in_bounds_witness :
  ProductDetails.selectionInBounds
    (ProductDetails.fire (ProductDetails.ClickThumbnail 1) loadedPhone).
Proof.
  apply (thumbnail_click_in_bounds loadedPhone 1). vm_compute. reflexivity.
Defined.

(** C6 as stated fails.  Detail page: the load of product 1 fails, the
    route changes to product 2 and that load succeeds; the product is
    stored but the error is still there and is what gets rendered.
    Listing page: after a failed search the Clear handler runs and its
    fetch succeeds; the error is still there. *)
Lemma error_survives_successful_fetch :
  (∃ s,
     ProductDetails.run
       [ProductDetails.Settle 0 Rejected;
        ProductDetails.Navigate "2";
        ProductDetails.Settle 0 (productReply (sampleRaw 2 "Shoe" ["s.png"]))]
       (ProductDetails.mount "1") = Some s ∧
     truthy (ProductDetails.product s) = true ∧
     ProductDetails.loading s = false ∧
     ProductDetails.error s = Some "Failed to load product" ∧
     ProductDetails.render s
       = ProductDetails.ErrorView "Failed to load product") ∧
  Products.run failedSearchSession Products.mount = Some afterFailedSearch ∧
  Products.error afterFailedSearch = Some "Failed to search products" ∧
  let cleared :=
    Products.fire (Products.Settle 0 (listReply [rawPhone]))
      (Products.handleClear_call afterFailedSearch) in
  length (Products.products cleared) = 1%nat ∧
  Products.loading cleared = false ∧
  Products.error cleared = Some "Failed to search products".
Proof.
  split.
  - eexists. split; [by vm_compute|]. repeat split; by vm_compute.
  - repeat split; by vm_compute.
Qed.

(** C6, amended.  No handler or effect of either controller writes [null]
    to [error]: once an error is stored it is still stored after every
    later event, whether a fetch fails or succeeds. *)
Theorem error_is_never_cleared :
  (∀ e s, is_Some (Products.error s) →
     is_Some (Products.error (Products.fire e s))) ∧
  (∀ e s, is_Some (ProductDetails.error s) →
     is_Some (ProductDetails.error (ProductDetails.fire e s))).
Proof.
  split.
  - intros e s Herr. destruct e as [v| | |i r]; cbn [Products.fire].
    + exact Herr.
    + unfold Products.handleSearch, Products.runEffects,
        Products.performSearch_call.
      repeat case_match; exact Herr.
    + unfold Products.handleClear_call, Products.runEffects,
        Products.performSearch_call.
      repeat case_match; exact Herr.
    + destruct (Products.inFlight s !! i) as [a|]; [|exact Herr].
      destruct a; destruct (settle _ r); cbn; by eauto.
  - intros e s Herr. destruct e as [id'|index|i r]; cbn [ProductDetails.fire].
    + unfold ProductDetails.navigate. case_decide; exact Herr.
    + exact Herr.
    + destruct (ProductDetails.inFlight s !! i) as [a|]; [|exact Herr].
      destruct (settle _ r); cbn; by eauto.
Qed.

Lemma error_is_never_cleared_witness :
  is_Some (Products.error
    (Products.fire (Products.Settle 0 (listReply [rawPhone]))
       (Products.handleClear_call afterFailedSearch))).
Proof.
  apply (proj1 error_is_never_cleared
           (Products.Settle 0 (listReply [rawPhone]))
           (Products.handleClear_call afterFailedSearch)).
  vm_compute. eexists. reflexivity.
Defined.

(** C7 as stated fails for a detail load started while another is
    pending: the route changes to product 2 during the load of product 1;
    when the first fetch settles, [loading] becomes false although the
    load of product 2 has not settled yet. *)
Lemma loading_cleared_during_second_load :
  ∃ s,
    ProductDetails.run
      [ProductDetails.Navigate "2";
       ProductDetails.Settle 0 (productReply rawPhone)]
      (ProductDetails.mount "1") = Some s ∧
    ProductDetails.id s = "2" ∧
    ProductDetails.inFlight s = ["2"] ∧
    ProductDetails.loading s = false.
Proof. eexists. split; [by vm_compute|]. repeat split; by vm_compute. Qed.

(** C9.  In every state the listing page can reach from its mount through
    the controls it renders and the settling of its fetches, search mode
    implies a non-empty committed query. *)
Theorem searching_implies_query (s : Products.State) :
  Products.reachable s →
  Products.isSearching s = true → Products.searchQuery s ≠ "".
Proof.
  intros Hs. apply (Products.inv_searching s). by apply invariant_reachable.
Qed.

Lemma searching_implies_query_witness :
  Products.searchQuery afterSearch ≠ "".
Proof.
  apply (searching_implies_query afterSearch).
  - exists searchSession. vm_compute. reflexivity.
  - vm_compute. reflexivity.
Defined.

(** C10.  [handleClear] empties [inputValue] and [searchQuery] before it
    awaits the fetch, and neither cell is written when the fetch settles:
    both are empty afterwards on the success path and on the failure
    path, where the error message is stored as well. *)
Theorem handleClear_resets_input_on_every_path
    (s : Products.State) (r : Response) :
  let cleared := Products.handleClear_call s in
  let settled :=
    Products.fire (Products.Settle (length (Products.inFlight s)) r)
      cleared in
  Products.inputValue cleared = "" ∧
  Products.searchQuery cleared = "" ∧
  Products.inFlight cleared
    = (Products.inFlight s ++ [Products.AwaitHandleClear])%list ∧
  Products.inputValue settled = "" ∧
  Products.searchQuery settled = "" ∧
  (∀ e, settle fetchProducts_default r = Throw e →
     Products.error settled = Some "Failed to load products" ∧
     Products.loading settled = false).
Proof.
  cbn zeta.
  assert (∃ b, Products.handleClear_call s =
     Products.MkState (Products.products s) true (Products.error s) "" "" b
       (Products.inFlight s ++ [Products.AwaitHandleClear])) as [b Hc].
  { unfold Products.handleClear_call, Products.runEffects. cbn.
    case_decide; by eexists. }
  rewrite Hc. cbn [Products.inputValue Products.searchQuery Products.inFlight].
  split; [done|]. split; [done|]. split; [done|].
  cbn [Products.fire Products.inFlight].
  rewrite list_lookup_middle by done.
  cbn [Products.awaited Products.resume Products.handleClear_resume].
  destruct (settle fetchProducts_default r) as [data|err]; cbn;
    repeat split; try done.
Qed.

Lemma handleClear_resets_input_on_every_path_witness :
  Products.inputValue
    (Products.fire (Products.Settle 0 Rejected)
       (Products.handleClear_call afterSearch)) = "" ∧
  Products.searchQuery
    (Products.fire (Products.Settle 0 Rejected)
       (Products.handleClear_call afterSearch)) = "" ∧
  Products.error
    (Products.fire (Products.Settle 0 Rejected)
       (Products.handleClear_call afterSearch))
    = Some "Failed to load products".
Proof.
  destruct (handleClear_resets_input_on_every_path afterSearch Rejected)
    as (_ & _ & _ & Hin & Hq & Hfail).
  split; [exact Hin|]. split; [exact Hq|].
  apply (Hfail TypeError). vm_compute. reflexivity.
Defined.

(** ** Further properties of the data access layer *)

Section ApiFacts.

Lemma getProp_ownProps (v : JsValue) (name : string) :
  getProp v name =
  if nullish v then Throw TypeError
  else Ok (default JUndefined (ownProps v !! name)).
Proof. by destruct v. Qed.

Lemma cleanProductData_cleaned (v : JsValue) :
  nullish v = false → cleanProductData v = Ok (cleaned v).
Proof. by destruct v. Qed.

Lemma cleanProductData_nullish (v : JsValue) :
  nullish v = true → cleanProductData v = Throw TypeError.
Proof. by destruct v. Qed.

Lemma project_lookup (m : gmap string JsValue) (f : string) :
  project m !! f =
  if decide (f ∈ productFields) then Some (default JUndefined (m !! f))
  else None.
Proof. apply projection_lookup. Qed.

Lemma project_dom (m : gmap string JsValue) :
  dom (project m) = list_to_set productFields.
Proof.
  apply set_eq. intros f.
  rewrite elem_of_dom, project_lookup, elem_of_list_to_set.
  case_decide; (split; [intros [? ?]|intros ?]); eauto; done.
Qed.

Lemma cleaned_isProduct (v : JsValue) : isProduct (cleaned v).
Proof. eexists. split; [reflexivity|apply project_dom]. Qed.

Lemma project_project (m : gmap string JsValue) :
  project (project m) = project m.
Proof.
  apply map_eq. intros f. rewrite !project_lookup. by case_decide.
Qed.

(** What [map(cleanProductData)] returns, element by element. *)
Lemma mapM_cleanProductData (l ps : list JsValue) :
  mapM cleanProductData l = Ok ps ↔
  Forall (λ x, nullish x = false) l ∧ ps = cleaned <$> l.
Proof.
  revert ps. induction l as [|x l IH]; intros ps.
  - cbn. split; [by intros [= <-]|by intros [_ ->]].
  - cbn [mapM]. destruct (nullish x) eqn:Hx.
    + rewrite (cleanProductData_nullish x Hx). cbn. split; [done|].
      intros [H _]. apply Forall_cons in H as [H _]. congruence.
    + rewrite (cleanProductData_cleaned x Hx). cbn.
      destruct (mapM cleanProductData l) as [ys|e] eqn:Hm; cbn.
      * destruct (proj1 (IH ys) eq_refl) as [Hl ->].
        split; [intros [= <-]; by split; [constructor|]|].
        by intros [_ ->].
      * split; [done|]. intros [H ->]. apply Forall_cons in H as [_ H].
        pose proof (proj2 (IH _) (conj H eq_refl)) as Hc. congruence.
Qed.

Lemma mapM_cleanProductData_error (l : list JsValue) (e : JsError) :
  mapM cleanProductData l = Throw e → e = TypeError.
Proof.
  induction l as [|x l IH]; cbn [mapM]; [done|].
  destruct (nullish x) eqn:Hx.
  - rewrite (cleanProductData_nullish x Hx). cbn. by intros [= <-].
  - rewrite (cleanProductData_cleaned x Hx). cbn.
    destruct (mapM cleanProductData l); cbn; [done|].
    intros [= <-]. by apply IH.
Qed.

(** A page that decodes holds normalized records only. *)
Lemma fetchProducts_products_cleaned (n : Z) (r : Response) page :
  settle (fetchProducts n) r = Ok page → Forall isProduct (Api.products page).
Proof.
  cbn [settle fetchProducts]. destruct r as [|st [data|]]; cbn; try done.
  unfold pageOf. rewrite !getProp_ownProps.
  destruct (nullish data); cbn; [done|].
  destruct (default JUndefined (ownProps data !! "products"))
    as [| | | | |l|]; cbn; try done.
  destruct (mapM cleanProductData l) as [ps|] eqn:Hm; cbn; [|done].
  apply mapM_cleanProductData in Hm as [_ ->]. intros [= <-]. cbn.
  apply Forall_fmap, Forall_true. intros x. apply cleaned_isProduct.
Qed.

Lemma fetchProductById_isProduct (a : string) (r : Response) (p : JsValue) :
  settle (fetchProductById a) r = Ok p → isProduct p.
Proof.
  cbn [settle fetchProductById]. destruct r as [|st [body|]]; cbn; try done.
  destruct (nullish body) eqn:Hb.
  - by rewrite (cleanProductData_nullish body Hb).
  - rewrite (cleanProductData_cleaned body Hb). intros [= <-].
    apply cleaned_isProduct.
Qed.

End ApiFacts.

(** X1.  Normalizing twice is the same as normalizing once: whatever
    [cleanProductData] returns is returned unchanged when passed through
    it again. *)
Theorem cleanProductData_idempotent (v out : JsValue) :
  cleanProductData v = Ok out → cleanProductData out = Ok out.
Proof.
  destruct (nullish v) eqn:Hv.
  - by rewrite (cleanProductData_nullish v Hv).
  - rewrite (cleanProductData_cleaned v Hv). intros [= <-].
    rewrite cleanProductData_cleaned by done.
    unfold cleaned. cbn [ownProps]. by rewrite project_project.
Qed.

Lemma cleanProductData_idempotent_witness :
  cleanProductData (cleaned (JObj rawPhone)) = Ok (cleaned (JObj rawPhone)).
Proof.
  apply (cleanProductData_idempotent (JObj rawPhone)). reflexivity.
Defined.

(** X2.  [cleanProductData] throws exactly on [null] and [undefined], and
    then a TypeError; on every other value, objects or not, it returns
    a record with exactly the 11 allow-listed properties, a property the
    input does not have being [undefined]. *)
Theorem cleanProductData_throws_only_on_nullish (v : JsValue) :
  match cleanProductData v with
  | Throw e => e = TypeError ∧ nullish v = true
  | Ok p =>
      nullish v = false ∧ isProduct p ∧
      ∀ f, f ∈ productFields →
        getProp p f = Ok (default JUndefined (ownProps v !! f))
  end.
Proof.
  destruct (nullish v) eqn:Hv.
  - by rewrite (cleanProductData_nullish v Hv).
  - rewrite (cleanProductData_cleaned v Hv).
    split; [done|]. split; [apply cleaned_isProduct|].
    intros f Hf. unfold cleaned. cbn [getProp].
    by rewrite project_lookup, decide_True.
Qed.

(** X3.  [fetchProducts] succeeds exactly when the reply has a JSON body
    whose [products] is an array without [null] entries; the status plays
    no part.  The page then holds the normalized entries in the order of
    the reply, and [total], [skip] and [limit] as the body has them. *)
Theorem fetchProducts_succeeds_iff (n : Z) (r : Response) (page : ProductsPage) :
  settle (fetchProducts n) r = Ok page ↔
  ∃ st data l,
    r = Reply st (Some data) ∧
    getProp data "products" = Ok (JArr l) ∧
    Forall (λ x, nullish x = false) l ∧
    Api.products page = cleaned <$> l ∧
    getProp data "total" = Ok (total page) ∧
    getProp data "skip" = Ok (skip page) ∧
    getProp data "limit" = Ok (limit page).
Proof.
  cbn [settle fetchProducts]. split.
  - destruct r as [|st [data|]]; cbn; try done.
    unfold pageOf. destruct (getProp data "products") as [raw|] eqn:Hp;
      cbn; [|done].
    destruct raw as [| | | | |l|]; cbn; try done.
    destruct (mapM cleanProductData l) as [ps|] eqn:Hm; cbn; [|done].
    apply mapM_cleanProductData in Hm as [Hl ->].
    assert (nullish data = false) as Hn by (by destruct data).
    rewrite !getProp_ownProps, Hn. cbn. intros [= <-].
    exists st, data, l.
    repeat split; try done; by rewrite getProp_ownProps, Hn.
  - intros (st & data & l & -> & Hp & Hl & Hps & Ht & Hs & Hlim). cbn.
    unfold pageOf. rewrite Hp. cbn.
    rewrite (proj2 (mapM_cleanProductData l _) (conj Hl eq_refl)). cbn.
    rewrite Ht, Hs, Hlim. cbn. destruct page; cbn in *. by subst.
Qed.

Lemma fetchProducts_succeeds_iff_witness :
  ∃ page, settle (fetchProducts 30) (listReply [rawPhone]) = Ok page ∧
          Api.products page = [cleaned (JObj rawPhone)].
Proof.
  eexists (MkPage [cleaned (JObj rawPhone)] (JNum 2) (JNum 0) (JNum 30)).
  split; [|reflexivity].
  apply (proj2 (fetchProducts_succeeds_iff 30 (listReply [rawPhone]) _)).
  eexists 200, _, [JObj rawPhone]. split; [reflexivity|].
  split; [by vm_compute|]. split; [by repeat constructor|].
  repeat split; by vm_compute.
Defined.

(** X4.  When [fetchProducts] throws, the error is a SyntaxError exactly
    when the body of the reply is not JSON, and a TypeError in every other
    case: when the fetch was rejected, and when the body is JSON of the
    wrong shape.  So the error does not tell a transport failure from an
    error reply, whose JSON body has no [products]. *)
Theorem fetchProducts_error_kinds (n : Z) (r : Response) (e : JsError) :
  settle (fetchProducts n) r = Throw e →
  (e = SyntaxError ↔ ∃ st, r = Reply st None) ∧
  (e = TypeError ↔ r = Rejected ∨ ∃ st data, r = Reply st (Some data)).
Proof.
  cbn [settle fetchProducts].
  destruct r as [|st [data|]]; cbn.
  - intros [= <-]. split; split; try done.
    + by intros [? ?].
    + by left.
  - intros He. assert (e = TypeError) as ->.
    { unfold pageOf in He. rewrite !getProp_ownProps in He.
      destruct (nullish data) eqn:Hn; cbn in He; [by injection He as <-|].
      destruct (default JUndefined (ownProps data !! "products"))
        as [| | | | |l|]; cbn in He; try (by injection He as <-).
      destruct (mapM cleanProductData l) eqn:Hm; cbn in He.
      - done.
      - injection He as <-. by eapply mapM_cleanProductData_error. }
    split; [split; [done|by intros [? ?]]|].
    split; [right; by eexists _, _|done].
  - intros [= <-]. split; [split; [by eexists|done]|].
    split; [done|]. intros [?|(? & ? & ?)]; done.
Qed.

Lemma fetchProducts_error_kinds_witness :
  settle (fetchProducts 30) serverErrorReply = Throw TypeError ∧
  settle (fetchProducts 30) Rejected = Throw TypeError.
Proof.
  split.
  - destruct (settle (fetchProducts 30) serverErrorReply) as [page|e] eqn:Hr.
    + exfalso. vm_compute in Hr. discriminate Hr.
    + f_equal.
      apply (proj2 (proj2 (fetchProducts_error_kinds 30 serverErrorReply e Hr))).
      right. by eexists _, _.
  - reflexivity.
Defined.

(** X5.  [fetchProductsByCategory] returns, for every reply, the
    [products] that [fetchProducts] returns for it, and throws what it
    throws: the same normalization, without the paging fields. *)
Theorem fetchProductsByCategory_agrees (c : string) (n : Z) (r : Response) :
  settle (fetchProductsByCategory c) r
  = Api.products <$> settle (fetchProducts n) r.
Proof.
  cbn [settle fetchProductsByCategory fetchProducts].
  destruct r as [|st [data|]]; cbn; try done.
  unfold pageOf. rewrite !getProp_ownProps.
  destruct (nullish data); cbn; [done|].
  by destruct (arrayMap cleanProductData _).
Qed.

(** X6.  [fetchProductById] succeeds exactly when the reply has a JSON
    body other than [null], whatever the status and whatever the body
    holds; the record returned is the normalized body and has exactly the
    11 allow-listed properties. *)
Theorem fetchProductById_succeeds_iff (a : string) (r : Response) (p : JsValue) :
  settle (fetchProductById a) r = Ok p ↔
  ∃ st body,
    r = Reply st (Some body) ∧ nullish body = false ∧
    p = cleaned body ∧ isProduct p.
Proof.
  cbn [settle fetchProductById]. split.
  - destruct r as [|st [body|]]; cbn; try done.
    destruct (nullish body) eqn:Hb.
    + by rewrite (cleanProductData_nullish body Hb).
    + rewrite (cleanProductData_cleaned body Hb). intros [= <-].
      exists st, body. repeat split; try done. apply cleaned_isProduct.
  - intros (st & body & -> & Hb & -> & _). cbn.
    by apply cleanProductData_cleaned.
Qed.

Lemma fetchProductById_succeeds_iff_witness :
  settle (fetchProductById "9999") notFoundReply
  = Ok (cleaned (JObj (list_to_map
      [("message", JStr "Product with id '9999' not found")]))).
Proof.
  apply (proj2 (fetchProductById_succeeds_iff "9999" notFoundReply _)).
  eexists 404, _. split; [reflexivity|]. split; [reflexivity|].
  split; [reflexivity|]. apply cleaned_isProduct.
Defined.

(** ** Further properties of the listing controller *)

Module ListingFacts.
Import Products ProductsFacts.

(** The shape of the state after each handler. *)
Lemma handleSearch_shape (s : State) :
  ∃ l b fl,
    handleSearch s =
    MkState (products s) l (error s) (inputValue s) (trim (inputValue s))
      b fl.
Proof.
  unfold handleSearch, runEffects, performSearch_call. cbn.
  repeat case_match; by eexists _, _, _.
Qed.

Lemma handleClear_call_shape (s : State) :
  ∃ b,
    handleClear_call s =
    MkState (products s) true (error s) "" "" b
      (inFlight s ++ [AwaitHandleClear]).
Proof.
  unfold handleClear_call, runEffects. cbn. case_decide; by eexists.
Qed.

(** Both list calls decode the reply alike. *)
Lemma awaited_settle (a : InFlight) (r : Response) :
  settle (awaited a) r = settle (fetchProducts 30) r.
Proof. by destruct a. Qed.

Lemma awaited_products_cleaned (a : InFlight) r page :
  settle (awaited a) r = Ok page → Forall isProduct (Api.products page).
Proof.
  rewrite awaited_settle. apply fetchProducts_products_cleaned.
Qed.

(** Under the invariant the settling fetch was the only one pending. *)
Lemma settle_empties (s : State) i r :
  invariant s → is_Some (inFlight s !! i) →
  i = 0%nat ∧ inFlight (fire (Settle i r) s) = [].
Proof.
  intros Hinv [a Ha]. pose proof (inv_single s Hinv) as Hlen.
  cbn [fire]. rewrite Ha.
  assert (i = 0%nat ∧ inFlight (wake i s) = []) as [-> Hw].
  { unfold wake. cbn.
    destruct (inFlight s) as [|a0 [|a1 l]]; [done| |cbn in Hlen; lia].
    by destruct i. }
  split; [done|].
  destruct a; destruct (settle _ r); cbn; exact Hw.
Qed.

Lemma quiet_reachable (s : State) :
  reachable s →
  invariant s ∧ (inFlight s ≠ [] → errorShown (error s) = None).
Proof.
  revert s. apply (reachable_ind
    (λ s, invariant s ∧ (inFlight s ≠ [] → errorShown (error s) = None))).
  { split; [apply invariant_mount|done]. }
  intros s e [Hinv Hq] He. split; [by apply invariant_step|].
  destruct e as [v| | |i r]; cbn [fire].
  - exact Hq.
  - unfold enabled in He. destruct (render s) eqn:Hr; try done.
    apply page_rendered in Hr as (_ & Herr & _).
    destruct (handleSearch_shape s) as (l & b & fl & ->). by cbn.
  - unfold enabled in He. destruct (render s) eqn:Hr; try done.
    apply page_rendered in Hr as (_ & Herr & _).
    destruct (handleClear_call_shape s) as (b & ->). by cbn.
  - assert (is_Some (inFlight s !! i)) as Hi.
    { unfold enabled in He.
      destruct (render s); by apply bool_decide_eq_true in He. }
    destruct (settle_empties s i r Hinv Hi) as [_ Hnil].
    cbn [fire] in Hnil. by rewrite Hnil.
Qed.

Lemma products_cleaned_reachable (s : State) :
  reachable s → Forall isProduct (products s).
Proof.
  revert s. apply (reachable_ind (λ s, Forall isProduct (products s))).
  { constructor. }
  intros s e IH He. destruct e as [v| | |i r]; cbn [fire].
  - exact IH.
  - destruct (handleSearch_shape s) as (l & b & fl & ->). exact IH.
  - destruct (handleClear_call_shape s) as (b & ->). exact IH.
  - destruct (inFlight s !! i) as [a|]; [|exact IH].
    destruct (settle (awaited a) r) as [page|err] eqn:Hr.
    + apply awaited_products_cleaned in Hr. by destruct a.
    + by destruct a.
Qed.

End ListingFacts.

Import ListingFacts.

(** X7.  Whatever the remote sends, every entry of the listing the page
    holds is a normalized record with exactly the 11 allow-listed
    properties: the cards never see another field. *)
Theorem listing_holds_products_only (s : Products.State) :
  Products.reachable s → Forall isProduct (Products.products s).
Proof. apply products_cleaned_reachable. Qed.

Lemma listing_holds_products_only_witness :
  Forall isProduct (Products.products afterSearch).
Proof.
  apply (listing_holds_products_only afterSearch).
  exists searchSession. vm_compute. reflexivity.
Defined.

(** X8.  The listing page never has two requests in flight, and a
    request in flight is either the default listing with limit 30 or a
    search for the current, non-empty [searchQuery]: the search endpoint
    is never asked with an empty query. *)
Theorem listing_requests (s : Products.State) :
  Products.reachable s →
  (length (Products.inFlight s) ≤ 1)%nat ∧
  ∀ a, a ∈ Products.inFlight s →
    match request (Products.awaited a) with
    | GetProducts n => n = 30
    | GetSearch q => q = Products.searchQuery s ∧ q ≠ ""
    | _ => False
    end.
Proof.
  intros Hinv%invariant_reachable.
  split; [apply (Products.inv_single s Hinv)|].
  intros [|q|] Ha; cbn; try done.
  by apply (Products.inv_query s Hinv).
Qed.

Lemma listing_requests_witness :
  (length (Products.inFlight afterSearch) ≤ 1)%nat.
Proof.
  apply (listing_requests afterSearch).
  exists searchSession. vm_compute. reflexivity.
Defined.



(** X10.  Committing an input whose trimmed value is the current
    [searchQuery] changes nothing: no request is sent and the state is
    the same, so pressing Search again does not repeat a search. *)
Theorem recommit_same_query_is_noop (s : Products.State) :
  trim (Products.inputValue s) = Products.searchQuery s →
  Products.handleSearch s = s.
Proof.
  intros Hq. unfold Products.handleSearch, Products.runEffects.
  cbn [Products.setSearchQuery Products.searchQuery].
  rewrite decide_True by done. rewrite Hq. by destruct s.
Qed.

Lemma recommit_same_query_is_noop_witness :
  Products.handleSearch (Products.fire (Products.Change "phone ") afterSearch)
  = Products.fire (Products.Change "phone ") afterSearch.
Proof.
  apply (recommit_same_query_is_noop
           (Products.fire (Products.Change "phone ") afterSearch)).
  vm_compute. reflexivity.
Defined.

(** X11.  Typing alone never sends a request: after any number of
    keystrokes only [inputValue] differs, and a key other than Enter
    leaves the state as it is. *)
Theorem typing_sends_nothing
    (es : list Products.Event) (s s' : Products.State) :
  forallb isChange es = true →
  Products.run es s = Some s' →
  Products.inFlight s' = Products.inFlight s ∧
  Products.products s' = Products.products s ∧
  Products.searchQuery s' = Products.searchQuery s ∧
  Products.isSearching s' = Products.isSearching s ∧
  Products.loading s' = Products.loading s ∧
  Products.error s' = Products.error s ∧
  ∀ key, key ≠ "Enter" → Products.handleKeyDown key s' = s'.
Proof.
  revert s. induction es as [|e es IH]; intros s Hes; cbn [Products.run].
  - intros [= <-]. repeat split; try done.
    intros key Hk. unfold Products.handleKeyDown. by rewrite decide_False.
  - cbn in Hes. apply andb_true_iff in Hes as [He Hes].
    destruct e as [v| | |]; try done.
    destruct (Products.enabled (Products.Change v) s); [|done].
    intros Hrun. by destruct (IH _ Hes Hrun) as (-> & -> & -> & -> & -> & -> & ?).
Qed.

Lemma typing_sends_nothing_witness :
  Products.inFlight
    (Products.fire (Products.Change "sh")
       (Products.fire (Products.Change "s") afterSearch))
  = Products.inFlight afterSearch.
Proof.
  apply (typing_sends_nothing [Products.Change "s"; Products.Change "sh"]
           afterSearch).
  - reflexivity.
  - vm_compute. reflexivity.
Defined.

(** X12.  Once the listing page renders its error view it stays there:
    nothing is pending and the view has no control, so no event can
    change the state any more. *)
Theorem listing_error_view_is_final
    (s : Products.State) (message : string) :
  Products.reachable s →
  Products.render s = Products.ErrorView message →
  Products.inFlight s = [] ∧
  ∀ e, Products.enabled e s = false.
Proof.
  intros Hinv%invariant_reachable Hr.
  assert (Products.loading s = false) as Hl.
  { unfold Products.render in Hr. by destruct (Products.loading s). }
  pose proof (idle_of_page s Hinv Hl) as Hidle.
  split; [done|].
  intros e. unfold Products.enabled. rewrite Hr, Hidle. by destruct e.
Qed.

Lemma listing_error_view_is_final_witness :
  Products.inFlight afterFailedSearch = [] ∧
  Products.enabled Products.Search afterFailedSearch = false.
Proof.
  destruct (listing_error_view_is_final afterFailedSearch
              "Failed to search products") as [Hidle Hnone].
  - exists failedSearchSession. vm_compute. reflexivity.
  - vm_compute. reflexivity.
  - split; [exact Hidle|apply Hnone].
Defined.

(** X13.  When a pending search succeeds, the state holds the reply's
    products in search mode for the non-empty query, nothing is pending,
    and [Products] returns the page tree with the Clear button and the
    "Found" count; for a reply without products the tree has the
    no-results message for the query in place of the card elements. *)
Theorem search_success_view
    (s : Products.State) (i : nat) (q : string) (r : Response)
    (page : ProductsPage) :
  Products.reachable s →
  Products.inFlight s !! i = Some (Products.AwaitPerformSearch q) →
  settle (searchProducts q) r = Ok page →
  let s' := Products.fire (Products.Settle i r) s in
  Products.products s' = Api.products page ∧
  Products.isSearching s' = true ∧
  Products.searchQuery s' = q ∧ q ≠ "" ∧
  Products.inFlight s' = [] ∧
  Products.render s' =
    Products.PageView (Products.inputValue s) true true
      (length (Api.products page))
      (if decide (length (Api.products page) = 0%nat)
       then Products.NoResults q else Products.Grid (Api.products page)).
Proof.
  intros Hs Ha Hr. cbn zeta.
  destruct (quiet_reachable s Hs) as [Hinv Hquiet].
  destruct (settle_empties s i r Hinv ltac:(by eexists)) as [-> Hnil].
  destruct (Products.inv_query s Hinv q) as [Hq Hne].
  { eapply list_elem_of_lookup_2. exact Ha. }
  assert (Products.errorShown (Products.error s) = None) as Herr.
  { apply Hquiet. intros Hn. by rewrite Hn in Ha. }
  revert Hnil. cbn [Products.fire]. rewrite Ha.
  cbn [Products.awaited]. rewrite Hr.
  unfold Products.render. cbn. rewrite Herr, <- Hq. by intros ->.
Qed.

Lemma search_success_view_witness :
  Products.render
    (Products.fire (Products.Settle 0 emptyListReply)
       (Products.fire Products.Search
          (Products.fire (Products.Change "zzz") afterSearch)))
  = Products.PageView "zzz" true true 0 (Products.NoResults "zzz").
Proof.
  apply (search_success_view
           (Products.fire Products.Search
              (Products.fire (Products.Change "zzz") afterSearch))
           0 "zzz" emptyListReply
           (MkPage [] (JNum 2) (JNum 0) (JNum 30))).
  - exists (searchSession ++ [Products.Change "zzz"; Products.Search])%list.
    vm_compute. reflexivity.
  - vm_compute. reflexivity.
  - vm_compute. reflexivity.
Defined.

(** X14.  Clear sends one request for the default listing.  Once it
    succeeds, the state holds the reply's products, the input and the
    query are empty, search mode is off, and [Products] returns the page
    tree without the Clear button and with the "Showing" count. *)
Theorem clear_restores_default_listing
    (s : Products.State) (r : Response) (page : ProductsPage) :
  Products.reachable s →
  Products.enabled Products.Clear s = true →
  settle fetchProducts_default r = Ok page →
  let cleared := Products.fire Products.Clear s in
  let s' := Products.fire (Products.Settle 0 r) cleared in
  Products.inFlight cleared = [Products.AwaitHandleClear] ∧
  request (Products.awaited Products.AwaitHandleClear) = GetProducts 30 ∧
  Products.products s' = Api.products page ∧
  Products.inputValue s' = "" ∧
  Products.searchQuery s' = "" ∧
  Products.isSearching s' = false ∧
  Products.inFlight s' = [] ∧
  Products.render s' =
    Products.PageView "" false false (length (Api.products page))
      (if decide (length (Api.products page) = 0%nat)
       then Products.NoResults "" else Products.Grid (Api.products page)).
Proof.
  intros Hs He Hr. cbn zeta.
  pose proof (invariant_reachable s Hs) as Hinv.
  unfold Products.enabled in He.
  destruct (Products.render s) eqn:Hrender; try done.
  apply page_rendered in Hrender as (Hl & Herr & ->).
  pose proof (idle_of_page s Hinv Hl) as Hidle.
  pose proof (Products.inv_searching s Hinv He) as Hne.
  change (Products.fire Products.Clear s) with (Products.handleClear_call s).
  assert (Products.handleClear_call s =
    Products.MkState (Products.products s) true (Products.error s) "" ""
      false [Products.AwaitHandleClear]) as ->.
  { unfold Products.handleClear_call, Products.runEffects. cbn.
    rewrite decide_False by done. cbn.
    unfold Products.setIsSearching, Products.suspend. cbn.
    by rewrite Hidle. }
  match goal with |- context [Products.fire (Products.Settle 0 r) ?c] =>
    change (Products.fire (Products.Settle 0 r) c)
      with (Products.handleClear_resume (settle fetchProducts_default r)
              (Products.wake 0 c))
  end.
  rewrite Hr. unfold Products.render. cbn. by rewrite Herr.
Qed.

Lemma clear_restores_default_listing_witness :
  Products.isSearching
    (Products.fire (Products.Settle 0 (listReply [rawPhone]))
       (Products.fire Products.Clear afterSearch)) = false.
Proof.
  destruct (clear_restores_default_listing afterSearch
              (listReply [rawPhone])
              (MkPage [cleaned (JObj rawPhone)] (JNum 2) (JNum 0) (JNum 30)))
    as (_ & _ & _ & _ & _ & H & _).
  - exists searchSession. vm_compute. reflexivity.
  - vm_compute. reflexivity.
  - vm_compute. reflexivity.
  - exact H.
Defined.

(** X15.  The first load.  If the reply decodes, the state holds its
    products and [Products] returns the page tree outside search mode,
    with the no-results message for an empty query if there are none; if
    it does not decode, for whatever reason, the listing stays empty and
    [Products] returns the error view "Failed to load products". *)
Theorem first_load_view (r : Response) :
  let s' := Products.fire (Products.Settle 0 r) Products.mount in
  Products.inFlight Products.mount = [Products.AwaitLoadProducts] ∧
  Products.render Products.mount = Products.LoadingView ∧
  match settle fetchProducts_default r with
  | Ok page =>
      Products.products s' = Api.products page ∧
      Products.render s' =
        Products.PageView "" false false (length (Api.products page))
          (if decide (length (Api.products page) = 0%nat)
           then Products.NoResults ""
           else Products.Grid (Api.products page))
  | Throw _ =>
      Products.products s' = [] ∧
      Products.render s' = Products.ErrorView "Failed to load products"
  end.
Proof.
  cbn zeta. split; [done|]. split; [done|].
  cbn [Products.fire]. change (Products.inFlight Products.mount !! 0%nat)
    with (Some Products.AwaitLoadProducts).
  cbn [Products.awaited Products.resume].
  destruct (settle fetchProducts_default r) as [page|err]; by cbn.
Qed.

(** ** Further properties of the detail controller *)

Module DetailFacts.
Import ProductDetails ProductDetailsFacts.

Lemma details_run_ind (P : State → Prop) (ok : Event → bool) (s0 : State) :
  P s0 →
  (∀ s e, P s → ok e = true → enabled e s = true → P (fire e s)) →
  ∀ es s, forallb ok es = true → run es s0 = Some s → P s.
Proof.
  intros H0 Hstep es. revert s0 H0.
  induction es as [|e es IH]; intros s0 H0 s Hok; cbn [run].
  - by intros [= <-].
  - cbn in Hok. apply andb_true_iff in Hok as [He Hes].
    destruct (enabled e s0) eqn:Hen; [|done]. apply IH; [|done].
    by apply Hstep.
Qed.

(** A fetch can settle only if it is pending and the tree is mounted. *)
Lemma settle_enabled (s : State) i r :
  enabled (Settle i r) s = true →
  is_Some (inFlight s !! i) ∧ render s ≠ Crash.
Proof.
  unfold enabled.
  destruct (render s); try done; by intros ?%bool_decide_eq_true.
Qed.

(** What the page view of the gallery says about the state. *)
Lemma details_rendered (s : State) main thumbs :
  render s = DetailsView main thumbs →
  loading s = false ∧
  getProp (product s) "images" = Ok (JArr thumbs) ∧
  main = arrayIndex thumbs (selectedImage s).
Proof.
  unfold render. destruct (loading s); [done|].
  destruct (errorShown (error s)); [done|].
  destruct (negb (truthy (product s))); [done|].
  destruct (getProp (product s) "images") as [[| | | | |images|]|]; try done.
  by intros [= <- <-].
Qed.

Lemma arrayIndex_of_nat (l : list JsValue) (i : nat) :
  arrayIndex l (Z.of_nat i) = default JUndefined (l !! i).
Proof.
  unfold arrayIndex. rewrite Nat2Z.id.
  by destruct (Z.ltb_spec (Z.of_nat i) 0); [lia|].
Qed.

(** A click stores the position of a thumbnail of the displayed array. *)
Lemma click_selects_rendered_image (s : State) (index : nat) :
  enabled (ClickThumbnail index) s = true →
  selectionInBounds (fire (ClickThumbnail index) s).
Proof.
  unfold enabled. destruct (render s) as [| | |main thumbs|] eqn:Hr; try done.
  intros Hi%bool_decide_eq_true.
  apply details_rendered in Hr as (_ & Himg & _).
  unfold selectionInBounds. cbn. rewrite Himg. lia.
Qed.

Lemma product_cleaned_reachable (s : State) :
  reachable s → product s = JNull ∨ isProduct (product s).
Proof.
  revert s. apply (details_reachable_ind
    (λ s, product s = JNull ∨ isProduct (product s))); [by left|].
  intros s e IH He. destruct e as [id'|index|i r]; cbn [fire].
  - unfold navigate. by case_decide.
  - exact IH.
  - destruct (inFlight s !! i) as [a|]; [|exact IH].
    destruct (settle (fetchProductById a) r) as [p|err] eqn:Hr; [|exact IH].
    right. cbn. by eapply fetchProductById_isProduct.
Qed.

Lemma selected_image_nonnegative (s : State) :
  reachable s → 0 ≤ selectedImage s.
Proof.
  revert s. apply (details_reachable_ind (λ s, 0 ≤ selectedImage s));
    [done|].
  intros s e IH He. destruct e as [id'|index|i r].
  - cbn [fire]. unfold navigate. by case_decide.
  - cbn. lia.
  - by rewrite settle_keeps_selected_image.
Qed.

Lemma steady_run (i : string) (es : list Event) (s : State) :
  forallb (λ e, negb (isNavigate e)) es = true →
  run es (mount i) = Some s → steady s.
Proof.
  apply (details_run_ind steady).
  { split; cbn; try done. by left. }
  clear s. intros s e [H1 H2 H3 H4] Hok He.
  destruct e as [id'|index|j r]; [done| |].
  - pose proof (click_selects_rendered_image s index He) as Hin.
    unfold enabled in He.
    destruct (render s) as [| | |main thumbs|] eqn:Hr; try done.
    apply details_rendered in Hr as (Hl & _ & _).
    assert (inFlight s = []) as Hidle.
    { destruct (inFlight s) eqn:Hf; [done|].
      assert (loading s = true) by (by apply H1). congruence. }
    split; cbn; try done. by right.
  - destruct (settle_enabled s j r He) as [[a Ha] _].
    assert (selectedImage s = 0) as Hsel.
    { apply H3. intros Hn. by rewrite Hn in Ha. }
    cbn [fire]. rewrite Ha.
    assert (inFlight (wake j s) = []) as Hw.
    { unfold wake. cbn.
      destruct (inFlight s) as [|a0 [|a1 l]]; [done| |cbn in H2; lia].
      by destruct j. }
    destruct (settle (fetchProductById a) r); cbn in *;
      (split; cbn; rewrite ?Hw; cbn;
         [split; [done|by intros ?] | lia | done | by left]).
Qed.

(** One load, no further navigation: [loading] is up exactly until the
    load settles. *)
Lemma single_load_run (a : string) (s0 : State) (es : list Event) (s : State) :
  loading s0 = true → inFlight s0 = [a] →
  forallb (λ e, negb (isNavigate e)) es = true →
  run es s0 = Some s →
  (loading s = true ∧ inFlight s = [a]) ∨
  (loading s = false ∧ inFlight s = []).
Proof.
  intros Hl Hf.
  apply (details_run_ind
    (λ s, (loading s = true ∧ inFlight s = [a]) ∨
          (loading s = false ∧ inFlight s = []))); [by left|].
  clear s. intros s e Hs Hok He.
  destruct e as [id'|index|j r]; [done|exact Hs|].
  destruct (settle_enabled s j r He) as [[b Hb] _].
  right. cbn [fire]. rewrite Hb.
  assert (inFlight (wake j s) = []) as Hw.
  { unfold wake. cbn. destruct Hs as [[_ Hs]|[_ Hs]]; rewrite Hs in *;
      [by destruct j|done]. }
  by destruct (settle (fetchProductById b) r).
Qed.

End DetailFacts.

Import DetailFacts.

(** X16.  The detail page never renders "Product not found": once a load
    has settled either an error or a truthy record is stored, so the
    [if (!product)] branch cannot be taken. *)
Theorem not_found_view_never_rendered (s : ProductDetails.State) :
  ProductDetails.reachable s →
  ProductDetails.render s ≠ ProductDetails.NotFoundView.
Proof.
  intros Hs%settled_reachable. unfold ProductDetails.render.
  destruct (ProductDetails.loading s) eqn:Hl; [done|].
  destruct (ProductDetails.errorShown (ProductDetails.error s)) eqn:He;
    [done|].
  destruct Hs as [Hs | [Hp | [m Hm]]]; [congruence| |congruence].
  rewrite Hp. cbn.
  by destruct (getProp (ProductDetails.product s) "images") as [[]|].
Qed.

Lemma not_found_view_never_rendered_witness :
  ProductDetails.render
    (default (ProductDetails.mount "9999")
       (ProductDetails.run [ProductDetails.Settle 0 notFoundReply]
          (ProductDetails.mount "9999")))
  ≠ ProductDetails.NotFoundView.
Proof.
  apply not_found_view_never_rendered.
  exists "9999", [ProductDetails.Settle 0 notFoundReply].
  vm_compute. reflexivity.
Defined.

(** X17.  The product held by the detail page is [null] (nothing loaded
    yet) or a normalized record with exactly the 11 allow-listed
    properties; when the page is neither loading nor showing an error it
    is such a record. *)
Theorem detail_holds_product_only (s : ProductDetails.State) :
  ProductDetails.reachable s →
  (ProductDetails.product s = JNull ∨ isProduct (ProductDetails.product s)) ∧
  (ProductDetails.loading s = false →
   ProductDetails.errorShown (ProductDetails.error s) = None →
   isProduct (ProductDetails.product s)).
Proof.
  intros Hs. pose proof (product_cleaned_reachable s Hs) as Hp.
  split; [exact Hp|]. intros Hl He.
  destruct (settled_reachable s Hs) as [Hs' | [Ht | [m Hm]]];
    [congruence| |congruence].
  destruct Hp as [Hn|Hp]; [|done]. by rewrite Hn in Ht.
Qed.

Lemma detail_holds_product_only_witness :
  isProduct (ProductDetails.product loadedPhone).
Proof.
  apply (detail_holds_product_only loadedPhone).
  - exists "1", [ProductDetails.Settle 0 (productReply rawPhone)].
    vm_compute. reflexivity.
  - vm_compute. reflexivity.
  - vm_compute. reflexivity.
Defined.

(** X18.  As long as the route parameter does not change, the main image
    of the detail page is one of the product's images, at the selected
    position; the only exception is a product whose [images] array is
    empty, for which the main image is [undefined]. *)
Theorem main_image_defined_without_navigation
    (i : string) (es : list ProductDetails.Event) (s : ProductDetails.State)
    (main : JsValue) (thumbs : list JsValue) :
  forallb (λ e, negb (isNavigate e)) es = true →
  ProductDetails.run es (ProductDetails.mount i) = Some s →
  ProductDetails.render s = ProductDetails.DetailsView main thumbs →
  (thumbs = [] ∧ main = JUndefined) ∨
  (ProductDetails.selectionInBounds s ∧
   thumbs !! Z.to_nat (ProductDetails.selectedImage s) = Some main).
Proof.
  intros Hes Hrun Hr.
  destruct (steady_run i es s Hes Hrun) as [_ _ _ Hsel].
  apply details_rendered in Hr as (_ & Himg & ->).
  assert (ProductDetails.selectionInBounds s →
          thumbs !! Z.to_nat (ProductDetails.selectedImage s)
          = Some (arrayIndex thumbs (ProductDetails.selectedImage s))) as Hin.
  { unfold ProductDetails.selectionInBounds. rewrite Himg. intros [H0 Hlt].
    unfold arrayIndex.
    destruct (Z.ltb_spec (ProductDetails.selectedImage s) 0); [lia|].
    destruct (lookup_lt_is_Some_2 thumbs
                (Z.to_nat (ProductDetails.selectedImage s))) as [x Hx];
      [lia|].
    by rewrite Hx. }
  destruct Hsel as [H0|Hb]; [|right; split; [done|by apply Hin]].
  destruct thumbs as [|x thumbs].
  - left. split; [done|]. by rewrite H0.
  - right.
    assert (ProductDetails.selectionInBounds s) as Hb.
    { unfold ProductDetails.selectionInBounds. rewrite Himg, H0. cbn. lia. }
    split; [done|by apply Hin].
Qed.

Lemma main_image_defined_without_navigation_witness :
  ([JStr "a.png"; JStr "b.png"; JStr "c.png"] = [] ∧ JStr "c.png" = JUndefined)
  ∨ (ProductDetails.selectionInBounds afterGalleryVisit ∧
     [JStr "a.png"; JStr "b.png"; JStr "c.png"]
       !! Z.to_nat (ProductDetails.selectedImage afterGalleryVisit)
     = Some (JStr "c.png")).
Proof.
  apply (main_image_defined_without_navigation "1" galleryVisit
           afterGalleryVisit).
  - reflexivity.
  - vm_compute. reflexivity.
  - vm_compute. reflexivity.
Defined.



(** X20.  The first load of the detail page.  A reply that does not
    decode stores the error, and the error view "Failed to load product"
    is returned.  One that decodes is stored with the selection at 0, so
    [product.images[selectedImage]] is the first image, or [undefined]
    when [images] is an empty array; when [images] is not an array,
    rendering throws. *)
Theorem first_detail_load_view (i : string) (r : Response) :
  let s' :=
    ProductDetails.fire (ProductDetails.Settle 0 r) (ProductDetails.mount i) in
  ProductDetails.render (ProductDetails.mount i) = ProductDetails.LoadingView ∧
  ProductDetails.inFlight (ProductDetails.mount i) = [i] ∧
  request (fetchProductById i) = GetProductById i ∧
  ProductDetails.selectedImage s' = 0 ∧
  ProductDetails.loading s' = false ∧
  ProductDetails.inFlight s' = [] ∧
  match settle (fetchProductById i) r with
  | Throw _ =>
      ProductDetails.product s' = JNull ∧
      ProductDetails.error s' = Some "Failed to load product" ∧
      ProductDetails.render s' =
        ProductDetails.ErrorView "Failed to load product"
  | Ok p =>
      ProductDetails.product s' = p ∧
      ProductDetails.error s' = None ∧
      match getProp p "images" with
      | Ok (JArr images) =>
          arrayIndex images (ProductDetails.selectedImage s')
          = default JUndefined (head images)
      | _ => ProductDetails.render s' = ProductDetails.Crash
      end
  end.
Proof.
  cbn zeta. split; [done|]. split; [done|]. split; [done|].
  change (ProductDetails.fire (ProductDetails.Settle 0 r)
            (ProductDetails.mount i))
    with (ProductDetails.loadProduct_resume (settle (fetchProductById i) r)
            (ProductDetails.wake 0 (ProductDetails.mount i))).
  destruct (settle (fetchProductById i) r) as [p|err] eqn:Hr.
  - pose proof (fetchProductById_truthy i r p Hr) as Hp.
    split; [done|]. split; [done|]. split; [done|].
    split; [done|]. split; [done|].
    unfold ProductDetails.render. cbn. rewrite Hp. cbn.
    by destruct (getProp p "images") as [[| | | | |[|first rest]|]|].
  - by cbn.
Qed.

(** X21.  The selected image index is never negative: it starts at 0 and
    is otherwise the position of a clicked thumbnail. *)
Theorem selected_image_never_negative (s : ProductDetails.State) :
  ProductDetails.reachable s → 0 ≤ ProductDetails.selectedImage s.
Proof. apply selected_image_nonnegative. Qed.

Lemma selected_image_never_negative_witness :
  0 ≤ ProductDetails.selectedImage afterGalleryVisit.
Proof.
  apply (selected_image_never_negative afterGalleryVisit).
  exists "1", galleryVisit. vm_compute. reflexivity.
Defined.

(** C7, amended.  Every fetch-triggering action sets [loading] to true
    when invoked, and the settling of a fetch sets it to false whether the
    fetch succeeded or failed, so it is never true once nothing is
    pending.  On the listing page [loading] is true exactly while a fetch
    is pending.  On the detail page [loading] is true exactly while the
    load is pending if the load is invoked with no other load pending (at
    mount, or by a route change on an idle page) and no further
    navigation happens before it settles. *)
Theorem loading_follows_pending_fetches :
  (∀ s, Products.reachable s →
     (Products.loading s = true ↔ Products.inFlight s ≠ []) ∧
     (∀ i r, is_Some (Products.inFlight s !! i) →
        Products.loading (Products.fire (Products.Settle i r) s) = false ∧
        Products.inFlight (Products.fire (Products.Settle i r) s) = [])) ∧
  (∀ i, ProductDetails.loading (ProductDetails.mount i) = true) ∧
  (∀ s, ProductDetails.reachable s →
     (ProductDetails.inFlight s = [] → ProductDetails.loading s = false) ∧
     (∀ id', ProductDetails.id s ≠ id' →
        ProductDetails.loading (ProductDetails.navigate id' s) = true) ∧
     (∀ i r, is_Some (ProductDetails.inFlight s !! i) →
        ProductDetails.loading
          (ProductDetails.fire (ProductDetails.Settle i r) s) = false)) ∧
  (∀ i es s',
     forallb (λ e, negb (isNavigate e)) es = true →
     ProductDetails.run es (ProductDetails.mount i) = Some s' →
     (ProductDetails.loading s' = true ∧ ProductDetails.inFlight s' = [i]) ∨
     (ProductDetails.loading s' = false ∧ ProductDetails.inFlight s' = [])) ∧
  (∀ s id' es s',
     ProductDetails.inFlight s = [] →
     ProductDetails.id s ≠ id' →
     forallb (λ e, negb (isNavigate e)) es = true →
     ProductDetails.run es (ProductDetails.navigate id' s) = Some s' →
     (ProductDetails.loading s' = true ∧ ProductDetails.inFlight s' = [id']) ∨
     (ProductDetails.loading s' = false ∧ ProductDetails.inFlight s' = [])).
Proof.
  split; [|split; [done|split; [|split]]].
  - intros s Hs. pose proof (invariant_reachable s Hs) as Hinv.
    split; [apply (Products.inv_loading s Hinv)|].
    intros i r Hi.
    pose proof (invariant_settle s i r Hinv Hi) as Hinv'.
    destruct (settle_empties s i r Hinv Hi) as [_ Hnil].
    split; [|exact Hnil].
    destruct (Products.loading _) eqn:Hl; [|done].
    by apply (Products.inv_loading _ Hinv') in Hl.
  - intros s Hs. split; [by apply idle_not_loading|].
    split.
    { intros id' Hid. unfold ProductDetails.navigate.
      by rewrite decide_False by exact Hid. }
    intros i r [a Ha]. cbn [ProductDetails.fire]. rewrite Ha.
    by destruct (settle _ r).
  - intros i es s'. by apply single_load_run.
  - intros s id' es s' Hidle Hid. apply single_load_run.
    + unfold ProductDetails.navigate. by rewrite decide_False by exact Hid.
    + unfold ProductDetails.navigate. rewrite decide_False by exact Hid.
      cbn. by rewrite Hidle.
Qed.

Lemma loading_follows_pending_fetches_witness :
  (Products.loading Products.mount = true ↔
   Products.inFlight Products.mount ≠ []) ∧
  ((ProductDetails.loading (ProductDetails.navigate "2" loadedPhone) = true ∧
    ProductDetails.inFlight (ProductDetails.navigate "2" loadedPhone) = ["2"])
   ∨
   (ProductDetails.loading (ProductDetails.navigate "2" loadedPhone) = false ∧
    ProductDetails.inFlight (ProductDetails.navigate "2" loadedPhone) = [])) ∧
  ((ProductDetails.loading loadedPhone = true ∧
    ProductDetails.inFlight loadedPhone = ["1"])
   ∨
   (ProductDetails.loading loadedPhone = false ∧
    ProductDetails.inFlight loadedPhone = [])).
Proof.
  destruct loading_follows_pending_fetches
    as (Hlist & _ & _ & Hmount & Hnav).
  split; [|split].
  - apply (Hlist Products.mount). exists []. reflexivity.
  - apply (Hnav loadedPhone "2" []).
    + vm_compute. reflexivity.
    + vm_compute. discriminate.
    + reflexivity.
    + reflexivity.
  - apply (Hmount "1" [ProductDetails.Settle 0 (productReply rawPhone)]).
    + reflexivity.
    + vm_compute. reflexivity.
Defined.
